(** * The HTTP request pipeline: topic bus, lifecycle events, plugin dispatch,
      XHR completion handlers and the response mappers.

    The TypeScript sources are embedded shallowly:
    - [Js]        the JavaScript values the code inspects ([typeof], truthiness,
                  the [in] operator) and the monad of computations that may
                  raise and that thread a store;
    - [Events]    [src/providers/backend/events.ts], as a map of channels;
    - [LiveEvents] the same, with the bus in the store, the handlers free
                  to use it and the names an array inherits;
    - [Pipeline]  [Http.runEvent] and the [Http] constructor, on top of the
                  lifecycle-event wrapper and the plugin registry;
    - [Xhr]       the [onLoad] and [onError] handlers of [XHRConnection];
    - [Request]   [Http.request];
    - [Mapper]    [ModelCollection] and [ModelMultiple]. *)

From Stdlib Require Import ZArith List String Ascii Bool Lia.
From stdpp Require Import base option list strings gmap.

Local Open Scope Z_scope.
Local Open Scope string_scope.
Local Open Scope list_scope.

(* ===================================================================== *)
(** * JavaScript values and computations *)
(* ===================================================================== *)

Module Js.

(** The values that flow through the pipeline.  Numbers are the integral
    ones plus [NaN]; a fractional number behaves like a non-zero integer in
    every test made by the code. Function objects are known by identity. *)
#[warnings="-register-all"]
Inductive value : Type :=
  | VUndefined
  | VNull
  | VBool (b : bool)
  | VNum (n : Z)
  | VNaN
  | VStr (s : string)
  | VArr (elems : list value)
  | VObj (fields : list (string * value))
  | VFun (id : nat).

(** [typeof v] *)
Definition typeof (v : value) : string :=
  match v with
  | VUndefined => "undefined"
  | VNull => "object"
  | VBool _ => "boolean"
  | VNum _ | VNaN => "number"
  | VStr _ => "string"
  | VArr _ | VObj _ => "object"
  | VFun _ => "function"
  end.

(** ToBoolean: what [if (v)], [!v] and [v ? a : b] test. *)
Definition truthy (v : value) : bool :=
  match v with
  | VUndefined | VNull | VNaN => false
  | VBool b => b
  | VNum n => negb (Z.eqb n 0)
  | VStr s => negb (String.eqb s "")
  | VArr _ | VObj _ | VFun _ => true
  end.

(** [v === null] and [v === false] *)
Definition is_null (v : value) : bool :=
  match v with VNull => true | _ => false end.

Definition is_false (v : value) : bool :=
  match v with VBool false => true | _ => false end.

(** [Array.isArray(v)] *)
Definition isArray (v : value) : bool :=
  match v with VArr _ => true | _ => false end.

(** Own-property lookup in an object literal, first binding wins;
    [obj.k] is [undefined] when the property is absent. *)
Fixpoint assoc (k : string) (fs : list (string * value)) : option value :=
  match fs with
  | [] => None
  | (k', v) :: fs' => if String.eqb k k' then Some v else assoc k fs'
  end.

Definition get_field (k : string) (v : value) : value :=
  match v with
  | VObj fs => default VUndefined (assoc k fs)
  | _ => VUndefined
  end.

(** [obj.k = x] on an object literal: overwrite in place or append. *)
Fixpoint set_assoc (k : string) (x : value) (fs : list (string * value))
  : list (string * value) :=
  match fs with
  | [] => [(k, x)]
  | (k', v) :: fs' =>
      if String.eqb k k' then (k, x) :: fs' else (k', v) :: set_assoc k x fs'
  end.

Definition set_field (k : string) (x : value) (v : value) : value :=
  match v with
  | VObj fs => VObj (set_assoc k x fs)
  | _ => v
  end.

(** [new Error(msg)] *)
Definition js_error (msg : string) : value :=
  VObj [("name", VStr "Error"); ("message", VStr msg)].

Definition type_error (msg : string) : value :=
  VObj [("name", VStr "TypeError"); ("message", VStr msg)].

(** A call either returns or raises; any value can be thrown. *)
Inductive outcome (A : Type) : Type :=
  | Ret (a : A)
  | Throw (e : value).
Arguments Ret {A} a.
Arguments Throw {A} e.

Definition is_ret {A} (o : outcome A) : bool :=
  match o with Ret _ => true | Throw _ => false end.

(** Computations over a store [S]: the store survives a raise, as every
    side effect made before a JavaScript [throw] does. *)
Definition M (S A : Type) : Type := S -> outcome A * S.

Definition ret {S A} (a : A) : M S A := fun s => (Ret a, s).
Definition throw {S A} (e : value) : M S A := fun s => (Throw e, s).
Definition bind {S A B} (c : M S A) (k : A -> M S B) : M S B :=
  fun s => match c s with
           | (Ret a, s') => k a s'
           | (Throw e, s') => (Throw e, s')
           end.

(** [try { c } catch (ex) { ... }] as a value: the raise is observed. *)
Definition try_ {S A} (c : M S A) : M S (outcome A) :=
  fun s => let '(o, s') := c s in (Ret o, s').

(** [each_returns f xs s ys s']: calling [f] on the elements of [xs] one
    after the other, from store [s], no call raises; the calls return [ys],
    in that order, and leave the store [s']. *)
Inductive each_returns {S A B} (f : A -> M S B)
  : list A -> S -> list B -> S -> Prop :=
  | each_nil s : each_returns f [] s [] s
  | each_cons x xs s y s1 ys s2 :
      f x s = (Ret y, s1) ->
      each_returns f xs s1 ys s2 ->
      each_returns f (x :: xs) s (y :: ys) s2.

Definition modify {S} (f : S -> S) : M S unit := fun s => (Ret tt, f s).
Definition gets {S A} (f : S -> A) : M S A := fun s => (Ret (f s), s).

End Js.

Export Js.

Notation "'let!' x ':=' c 'in' k" := (bind c (fun x => k))
  (at level 10, x name, c at level 100, k at level 200).
Notation "c ';;;' k" := (bind c (fun _ => k))
  (at level 100, k at level 200, right associativity).

(* ===================================================================== *)
(** * The topic bus: [events.ts] *)
(* ===================================================================== *)

Module Events.
Section Bus.

(** Handlers are function objects: they are compared by identity
    ([indexOf]) and applied to an argument list ([handler.apply(null,
    args)]) in some store [St]. *)
Context {Handler : Type} `{EqDecision Handler} {St : Type}.
Variable call : Handler -> list value -> M St value.

(** [private channels], used as a map from topic to its handler array.
    This is the bus on plain topics ([LiveEvents.plain]) and with handlers
    that leave it alone, as [LiveFacts.subscribe_refines],
    [LiveFacts.unsubscribe_refines] and [LiveFacts.publish_refines] show;
    [LiveEvents] has the other topics and the other handlers. *)
Local Abbreviation channels := (gmap string (list Handler)).

(** [this.channels[topic].push(handler)] *)
Definition push (topic : string) (cs : channels) (h : Handler) : channels :=
  match cs !! topic with
  | Some t => <[topic := t ++ [h]]> cs
  | None => cs
  end.

(** [subscribe(topic, ...handlers)] *)
Definition subscribe (cs : channels) (topic : string) (handlers : list Handler)
  : channels :=
  let cs1 := match cs !! topic with
             | Some _ => cs                      (* an array is truthy *)
             | None => <[topic := []]> cs
             end in
  fold_left (push topic) handlers cs1.

(** [t.indexOf(handler)]: the first position holding that very object. *)
Fixpoint indexOf (h : Handler) (t : list Handler) : option nat :=
  match t with
  | [] => None
  | x :: t' => if decide (x = h) then Some 0%nat else S <$> indexOf h t'
  end.

(** [t.splice(i, 1)] *)
Definition splice1 (i : nat) (t : list Handler) : list Handler :=
  take i t ++ drop (S i) t.

(** [unsubscribe(topic, handler = null)]; the array spliced is the one
    stored in [channels], so the store sees the removal. *)
Definition unsubscribe (cs : channels) (topic : string) (handler : option Handler)
  : bool * channels :=
  match cs !! topic with
  | None => (false, cs)
  | Some t =>
      match handler with
      | None => (true, delete topic cs)
      | Some h =>
          match indexOf h t with
          | None => (false, cs)
          | Some i =>
              let t' := splice1 i t in
              match t' with
              | [] => (true, delete topic cs)
              | _ :: _ => (true, <[topic := t']> cs)
              end
          end
      end
  end.

(** The [forEach] of [publish], with [responses] as accumulator. *)
Fixpoint publish_loop (args : list value) (t : list Handler)
         (responses : list value) : M St (list value) :=
  match t with
  | [] => ret responses
  | handler :: t' =>
      let! r := call handler args in
      publish_loop args t' (responses ++ [r])
  end.

(** [publish(topic, ...args)] *)
Definition publish (cs : channels) (topic : string) (args : list value)
  : M St value :=
  match cs !! topic with
  | None => ret VNull
  | Some t =>
      let! responses := publish_loop args t [] in
      ret (VArr responses)
  end.

End Bus.
End Events.

(* ===================================================================== *)
(** * The topic bus with handlers that may use it *)
(* ===================================================================== *)

(** [Events] above takes handlers that leave the bus alone. Here the bus is
    part of the store, so that a handler may subscribe and unsubscribe
    while [publish] runs: [channels] maps a topic to a reference, and the
    handler arrays are objects reached through their references, as the
    array held by [publish] in [t] is the one [unsubscribe] splices. *)
Module LiveEvents.

(** What [this.channels[topic]] reads. *)
Inductive slot : Type :=
  | Handlers (ref : nat)     (* an own property: a handler array *)
  | Inherited                (* no own property, a function of the prototypes *)
  | Absent.                  (* [undefined] *)

(** A text of digits, as the array indices are. *)
Definition is_digit (c : ascii) : bool :=
  (48 <=? nat_of_ascii c)%nat && (nat_of_ascii c <=? 57)%nat.

Fixpoint digits_only (s : string) : bool :=
  match s with
  | EmptyString => true
  | String c s' => is_digit c && digits_only s'
  end.

Section Bus.

Context {Handler : Type} `{EqDecision Handler} {St : Type}.

(** The names under which an array inherits a function, in the engine at
    hand: [constructor], [push], [forEach], [toString] and so on. *)
Variable inherited_function : string -> bool.

(** The topics for which [channels], an array, behaves as a map: those that
    name nothing an array has or inherits. [length], [__proto__] and the
    array indices are not given their special meaning below; the facts keep
    to plain topics, or to the names of inherited functions. *)
Definition plain (topic : string) : bool :=
  negb (inherited_function topic)
  && negb (String.eqb topic "length")
  && negb (String.eqb topic "__proto__")
  && negb (digits_only topic && negb (String.eqb topic "")).

Record bus : Type := Bus {
  own : gmap string nat;
  arrays : gmap nat (list Handler);
  next : nat;
  user : St
}.

Definition array_at (b : bus) (ref : nat) : list Handler :=
  default [] (arrays b !! ref).

(** [this.channels[topic]] *)
Definition read (b : bus) (topic : string) : slot :=
  match own b !! topic with
  | Some ref => Handlers ref
  | None => if inherited_function topic then Inherited else Absent
  end.

(** The handlers a topic holds. *)
Definition handlers_of (b : bus) (topic : string) : list Handler :=
  match own b !! topic with
  | Some ref => array_at b ref
  | None => []
  end.

(** The handler array of a topic, when it has one, and the channels as a
    map from topics to handler arrays. *)
Definition channel (b : bus) (topic : string) : option (list Handler) :=
  array_at b <$> own b !! topic.

Definition view (b : bus) : gmap string (list Handler) := array_at b <$> own b.

(** Every array of [channels] was made by [this.channels[topic] = []]: no
    two topics hold the same array, and the next array made is a new one. *)
Definition well_formed (b : bus) : Prop :=
  (forall topic ref, own b !! topic = Some ref -> (ref < next b)%nat)
  /\ (forall topic topic' ref,
        own b !! topic = Some ref -> own b !! topic' = Some ref -> topic = topic').

(** A computation on the store of the handlers, which leaves the bus as it
    is. *)
Definition lift {A} (c : M St A) : M bus A :=
  fun b => let '(o, s) := c (user b) in (o, Bus (own b) (arrays b) (next b) s).

(** [this.channels[topic] = []] *)
Definition create (topic : string) : M bus unit :=
  modify (fun b => Bus (<[topic := next b]> (own b))
                       (<[next b := []]> (arrays b))
                       (S (next b)) (user b)).

(** [this.channels[topic].push(handler)] *)
Definition push (topic : string) (h : Handler) : M bus unit :=
  fun b =>
    match read b topic with
    | Handlers ref =>
        (Ret tt, Bus (own b) (<[ref := array_at b ref ++ [h]]> (arrays b))
                     (next b) (user b))
    | Inherited =>
        (Throw (type_error "this.channels[topic].push is not a function"), b)
    | Absent =>
        (Throw (type_error "Cannot read properties of undefined"), b)
    end.

Fixpoint push_all (topic : string) (handlers : list Handler) : M bus unit :=
  match handlers with
  | [] => ret tt
  | h :: rest => push topic h ;;; push_all topic rest
  end.

(** [subscribe(topic, ...handlers)] *)
Definition subscribe (topic : string) (handlers : list Handler) : M bus unit :=
  (fun b => match read b topic with
            | Absent => create topic b
            | Handlers _ | Inherited => (Ret tt, b)
            end) ;;;
  push_all topic handlers.

(** [delete this.channels[topic]] *)
Definition remove (topic : string) (b : bus) : bus :=
  Bus (delete topic (own b)) (arrays b) (next b) (user b).

(** [unsubscribe(topic, handler = null)] *)
Definition unsubscribe (topic : string) (handler : option Handler) : M bus bool :=
  fun b =>
    match read b topic with
    | Absent => (Ret false, b)
    | Inherited =>
        match handler with
        | None => (Ret true, b)          (* [delete] finds no own property *)
        | Some _ => (Throw (type_error "t.indexOf is not a function"), b)
        end
    | Handlers ref =>
        match handler with
        | None => (Ret true, remove topic b)
        | Some h =>
            match Events.indexOf h (array_at b ref) with
            | None => (Ret false, b)
            | Some i =>
                let t' := Events.splice1 i (array_at b ref) in
                let b1 := Bus (own b) (<[ref := t']> (arrays b))
                              (next b) (user b) in
                match t' with
                | [] => (Ret true, remove topic b1)
                | _ :: _ => (Ret true, b1)
                end
            end
        end
    end.

(** What a handler does when applied: it may use the bus. *)
Variable call : Handler -> list value -> M bus value.

(** [t.forEach(...)]: the length is read once; the index [k] is then looked
    up in the array as it is when its turn comes, and passed over when the
    array no longer reaches it. *)
Fixpoint walk (ref : nat) (args : list value) (todo k : nat)
         (responses : list value) : M bus (list value) :=
  match todo with
  | O => ret responses
  | S todo' =>
      fun b =>
        match array_at b ref !! k with
        | Some handler =>
            (let! r := call handler args in
             walk ref args todo' (S k) (responses ++ [r])) b
        | None => walk ref args todo' (S k) responses b
        end
  end.

(** [publish(topic, ...args)] *)
Definition publish (topic : string) (args : list value) : M bus value :=
  fun b =>
    match read b topic with
    | Absent => (Ret VNull, b)
    | Inherited => (Throw (type_error "t.forEach is not a function"), b)
    | Handlers ref =>
        (let! responses := walk ref args (length (array_at b ref)) 0 [] in
         ret (VArr responses)) b
    end.

(** [undisturbed ref t args hs b rs b']: from [b], the handlers [hs] are
    applied to [args] one after the other; each returns, and leaves the
    array [ref] holding [t]; [rs] are the values returned, in order. *)
Inductive undisturbed (ref : nat) (t : list Handler) (args : list value)
  : list Handler -> bus -> list value -> bus -> Prop :=
  | undisturbed_nil b : undisturbed ref t args [] b [] b
  | undisturbed_cons h hs b r b1 rs b2 :
      call h args b = (Ret r, b1) ->
      array_at b1 ref = t ->
      undisturbed ref t args hs b1 rs b2 ->
      undisturbed ref t args (h :: hs) b (r :: rs) b2.

End Bus.

Arguments bus : clear implicits.

(** The functions an array inherits in every engine since ECMAScript 5. *)
Definition es5_functions : list string :=
  ["constructor"; "hasOwnProperty"; "isPrototypeOf"; "propertyIsEnumerable";
   "toLocaleString"; "toString"; "valueOf"; "concat"; "join"; "pop"; "push";
   "reverse"; "shift"; "slice"; "sort"; "splice"; "unshift"; "indexOf";
   "lastIndexOf"; "every"; "some"; "forEach"; "map"; "filter"; "reduce";
   "reduceRight"].

Definition es5 (name : string) : bool := bool_decide (name ∈ es5_functions).

End LiveEvents.

(* ===================================================================== *)
(** * Lifecycle events, plugins and [Http.runEvent] *)
(* ===================================================================== *)

Module Pipeline.

(** The four hook methods a plugin may implement. *)
Inductive hook : Type :=
  | preRequest
  | postRequest
  | postRequestSuccess
  | postRequestError.

(** Modelled from the spec: the four topic constants of [HttpEvents], whose
    declaration is not part of the sources at hand; the spec fixes four
    distinct topics, one per lifecycle phase. *)
Inductive lifecycle : Type :=
  | PRE_REQUEST
  | POST_REQUEST_SUCCESS
  | POST_REQUEST_ERROR
  | POST_REQUEST.

Definition topic_name (T : lifecycle) : string :=
  match T with
  | PRE_REQUEST => "PRE_REQUEST"
  | POST_REQUEST_SUCCESS => "POST_REQUEST_SUCCESS"
  | POST_REQUEST_ERROR => "POST_REQUEST_ERROR"
  | POST_REQUEST => "POST_REQUEST"
  end.

(** What an outside observer can see of a run, in order of occurrence. *)
Inductive label : Type :=
  | Published (topic : string) (args : list value)
  | HandlerCalled (id : nat) (args : list value)
  | HookCalled (plugin : string) (method : hook) (arg : value)
  | ObserverNext (v : value)
  | ObserverError (v : value)
  | ObserverComplete.

(** The handlers found on the bus: a callback handed in by the user, known
    by the identity of its function object, or the arrow function that
    [runEvent] creates for a hook method. *)
Inductive handler : Type :=
  | HUser (id : nat)
  | HDispatch (method : hook).

#[global] Instance hook_eq_dec : EqDecision hook.
Proof. solve_decision. Defined.
#[global] Instance lifecycle_eq_dec : EqDecision lifecycle.
Proof. solve_decision. Defined.
#[global] Instance handler_eq_dec : EqDecision handler.
Proof. solve_decision. Defined.

Section WithUser.

(** [U] is whatever state user code (callbacks, hooks, observers) keeps. *)
Context {U : Type}.

(** User code: applied to arguments, it returns or raises. It works on its
    own state: it does not call back into the bus or the registry while an
    event is being dispatched. *)
Definition callback : Type := list value -> M U value.

(** The store of a run: the observable trace, the stop flag that the spec
    gives the lifecycle events (the sources never set it) and the user
    state. *)
Record world : Type := World {
  trace : list label;
  stopped : bool;
  ustate : U
}.

Definition log (l : label) : M world unit :=
  modify (fun w => World (trace w ++ [l]) (stopped w) (ustate w)).

Definition lift {A} (c : M U A) : M world A :=
  fun w => let '(o, u) := c (ustate w) in
           (o, World (trace w) (stopped w) u).

(** A plugin: its name and the hook methods it has ([method in plugin]). *)
Record plugin : Type := Plugin {
  pname : string;
  phooks : hook -> option callback
}.

(** The code behind each user function object. *)
Variable code : nat -> callback.

(** Modelled from the spec: the plugin registry ([Plugins]) is not part of
    the sources at hand; it is an ordered sequence of plugins iterated in
    registration order. *)
Variable plugins : list plugin.

(** [this.events.stop()]: the field [events] of [Http] is an [Events], and
    that class ([events.ts]) has no method [stop]; calling what is
    [undefined] raises a [TypeError]. *)
Definition stop : M world unit :=
  throw (type_error "this.events.stop is not a function").

(** Modelled from the spec: [Plugins.forEach(fn)] is not part of the
    sources at hand; it invokes [fn(plugin)] for every plugin, in
    registration order. *)
Fixpoint forEach (fn : plugin -> M world unit) (ps : list plugin)
  : M world unit :=
  match ps with
  | [] => ret tt
  | p :: ps' => fn p ;;; forEach fn ps'
  end.

(** The body of the [forEach] callback in [Http.runEvent]. *)
Definition runEvent_body (method : hook) (req : value) (p : plugin)
  : M world unit :=
  match phooks p method with
  | None => ret tt                              (* !(method in plugin) *)
  | Some f =>
      log (HookCalled (pname p) method req) ;;;
      let! stop_ := lift (f [req]) in
      if is_false stop_ then stop else ret tt   (* stop === false *)
  end.

(** The handler [(req) => { this.plugins.forEach(...) }] of [runEvent]. *)
Definition runEvent_handler (method : hook) (args : list value)
  : M world value :=
  forEach (runEvent_body method (hd VUndefined args)) plugins ;;;
  ret VUndefined.

(** [handler.apply(null, args)] for the handlers of this program. *)
Definition apply_handler (h : handler) (args : list value) : M world value :=
  match h with
  | HUser id => log (HandlerCalled id args) ;;; lift (code id args)
  | HDispatch method => runEvent_handler method args
  end.

Local Abbreviation channels := (gmap string (list handler)).

(** [Http.runEvent(subscribe, method)] *)
Definition runEvent (cs : channels) (T : lifecycle) (method : hook) : channels :=
  Events.subscribe cs (topic_name T) [HDispatch method].

(** The body of the [Http] constructor. *)
Definition Http_constructor (cs : channels) : channels :=
  let cs := runEvent cs PRE_REQUEST preRequest in
  let cs := runEvent cs POST_REQUEST postRequest in
  let cs := runEvent cs POST_REQUEST_SUCCESS postRequestSuccess in
  runEvent cs POST_REQUEST_ERROR postRequestError.

(** [Http.onPreRequest(callback)] and its three siblings. *)
Definition on (T : lifecycle) (cs : channels) (callback_id : nat) : channels :=
  Events.subscribe cs (topic_name T) [HUser callback_id].

(** Modelled from the spec: [HttpEvents.preRequest], [postRequestSuccess],
    [postRequestError] and [postRequest] are not part of the sources at
    hand; each publishes its topic on the bus with the payload it is
    given, and does not catch what a handler raises. *)
Definition fire (cs : channels) (T : lifecycle) (args : list value)
  : M world unit :=
  log (Published (topic_name T) args) ;;;
  Events.publish apply_handler cs (topic_name T) args ;;;
  ret tt.

(** The hook that the [Http] constructor binds to each topic. *)
Definition hook_of (T : lifecycle) : hook :=
  match T with
  | PRE_REQUEST => preRequest
  | POST_REQUEST => postRequest
  | POST_REQUEST_SUCCESS => postRequestSuccess
  | POST_REQUEST_ERROR => postRequestError
  end.

(** [hooks_return method req ps u rs u']: from user state [u], the plugins
    of [ps] that have the hook [method] are called with [req] one after the
    other and none raises; [rs] lists, in order, the name of each plugin
    called and what its hook returned, and [u'] is the user state left. *)
Inductive hooks_return (method : hook) (req : value)
  : list plugin -> U -> list (string * value) -> U -> Prop :=
  | hooks_nil u : hooks_return method req [] u [] u
  | hooks_skip p ps u rs u' :
      phooks p method = None ->
      hooks_return method req ps u rs u' ->
      hooks_return method req (p :: ps) u rs u'
  | hooks_call p ps f u r u1 rs u' :
      phooks p method = Some f ->
      f [req] u = (Ret r, u1) ->
      hooks_return method req ps u1 rs u' ->
      hooks_return method req (p :: ps) u ((pname p, r) :: rs) u'.

(** No hook returned the literal [false]. *)
Definition never_false (rs : list (string * value)) : Prop :=
  Forall (fun nr => snd nr <> VBool false) rs.

(** The hook invocations an observer sees for the results [rs]. *)
Definition calls (method : hook) (req : value) (rs : list (string * value))
  : list label :=
  List.map (fun nr => HookCalled (fst nr) method req) rs.

End WithUser.

(** The topics published along a trace, in order. *)
Definition published (t : list label) : list string :=
  omap (fun l => match l with
                 | Published topic _ => Some topic
                 | _ => None
                 end) t.

Arguments world : clear implicits.
Arguments plugin : clear implicits.
Arguments callback : clear implicits.

End Pipeline.

(* ===================================================================== *)
(** * The completion handlers of [XHRConnection]: [xhr_backend.ts] *)
(* ===================================================================== *)

Module Xhr.
Import Pipeline.

(** What the handlers read from the [XMLHttpRequest] once it has completed.
    [xhr_response] is [VUndefined] when [typeof _xhr.response] is
    ['undefined']; [xhr_responseURL] is [None] when the object has no
    [responseURL] property. *)
Record xhr : Type := XHR {
  xhr_status : Z;
  xhr_response : value;
  xhr_responseText : string;
  xhr_statusText : string;
  xhr_allHeaders : string;
  xhr_responseURL : option value;
  xhr_getResponseHeader : string -> value
}.

Definition with_status (x : xhr) (st : Z) : xhr :=
  XHR st (xhr_response x) (xhr_responseText x) (xhr_statusText x)
      (xhr_allHeaders x) (xhr_responseURL x) (xhr_getResponseHeader x).

Definition nl : ascii := "010"%char.
Definition cr : ascii := "013"%char.

(** [Some rest] when [s] is [p] followed by [rest]. *)
Fixpoint strip_prefix (p s : string) : option string :=
  match p, s with
  | EmptyString, _ => Some s
  | String a p', String b s' => if Ascii.eqb a b then strip_prefix p' s' else None
  | String _ _, EmptyString => None
  end.

(** [body.replace(XSSI_PREFIX, '')] with [XSSI_PREFIX = /^\)\]\}',?\n/]. *)
Definition strip_xssi (body : string) : string :=
  match strip_prefix ")]}'" body with
  | None => body
  | Some rest =>
      match strip_prefix (String "," (String nl EmptyString)) rest with
      | Some rest' => rest'
      | None =>
          match strip_prefix (String nl EmptyString) rest with
          | Some rest' => rest'
          | None => body
          end
      end
  end.

(** [/^X-Request-URL:/m.test(headers)]: the text occurs at the start of a
    line. [fresh] tells whether the position read is the start of a line. *)
Fixpoint test_at_line_start (p : string) (fresh : bool) (s : string) : bool :=
  (fresh && bool_decide (is_Some (strip_prefix p s)))
  || match s with
     | EmptyString => false
     | String c s' =>
         test_at_line_start p (Ascii.eqb c nl || Ascii.eqb c cr) s'
     end.

(** [getResponseURL(xhr)] *)
Definition getResponseURL (x : xhr) : value :=
  match xhr_responseURL x with
  | Some u => u
  | None =>
      if test_at_line_start "X-Request-URL:" true (xhr_allHeaders x)
      then xhr_getResponseHeader x "X-Request-URL"
      else VUndefined
  end.

(** Lines 65-87 of [onLoad]: the status and the body after normalisation. *)
Definition normalize (x : xhr) : Z * value :=
  let status := if Z.eqb (xhr_status x) 1223 then 204 else xhr_status x in
  let body :=
    if negb (Z.eqb status 204) then
      let body := match xhr_response x with
                  | VUndefined => VStr (xhr_responseText x)
                  | r => r
                  end in
      match body with
      | VStr s => VStr (strip_xssi s)
      | _ => body
      end
    else VNull in
  let status := if Z.eqb status 0
                then (if truthy body then 200 else 0)
                else status in
  (status, body).

Section Connection.

Context {U : Type}.
Variable code : nat -> callback U.
Variable plugins : list (plugin U).

(** [isSuccess] comes from [./utils], which is not part of the sources at
    hand: any classification of statuses will do. *)
Variable isSuccess : Z -> bool.

(** The collaborators from [@angular/http]: the header parser, the [merge]
    of the base response options when there are some, and the [Response]
    constructor. *)
Variable fromResponseHeaderString : string -> value.
Variable baseResponseOptions : option (value -> value).
Variable new_Response : value -> value.

(** The subscriber of the response observable. *)
Record observer : Type := Observer {
  obs_next : callback U;
  obs_error : callback U;
  obs_complete : callback U
}.

Definition responseObserver_next (o : observer) (v : value) : M (world U) unit :=
  log (ObserverNext v) ;;; lift (obs_next o [v]) ;;; ret tt.

Definition responseObserver_error (o : observer) (v : value) : M (world U) unit :=
  log (ObserverError v) ;;; lift (obs_error o [v]) ;;; ret tt.

Definition responseObserver_complete (o : observer) : M (world U) unit :=
  log ObserverComplete ;;; lift (obs_complete o []) ;;; ret tt.

Local Abbreviation channels := (gmap string (list handler)).
Local Abbreviation fire := (Pipeline.fire code plugins).

(** [new ResponseOptions({...})], merged into the base options if any. *)
Definition merged (responseOptions : value) : value :=
  match baseResponseOptions with
  | Some merge => merge responseOptions
  | None => responseOptions
  end.

(** The response built by [onLoad]. *)
Definition load_response (req_url : value) (x : xhr) : value :=
  let '(status, body) := normalize x in
  let headers := fromResponseHeaderString (xhr_allHeaders x) in
  let url := if truthy (getResponseURL x) then getResponseURL x else req_url in
  let statusText := if String.eqb (xhr_statusText x) "" then "OK"
                    else xhr_statusText x in
  let responseOptions :=
    VObj [("body", body); ("status", VNum status); ("headers", headers);
          ("statusText", VStr statusText); ("url", url)] in
  set_field "ok" (VBool (isSuccess status))
            (new_Response (merged responseOptions)).

(** The response built by [onError]; [ResponseType.Error] is 3. *)
Definition error_response (x : xhr) (err : value) : value :=
  let responseOptions :=
    VObj [("body", err); ("type", VNum 3); ("status", VNum (xhr_status x));
          ("statusText", VStr (xhr_statusText x))] in
  new_Response (merged responseOptions).

(** Lines 111-123 of [onLoad] and, word for word, lines 139-151 of
    [onError]: tell the observer, keep what it raises, publish, raise. *)
Definition error_branch (cs : channels) (o : observer) (response : value)
  : M (world U) unit :=
  let! r := try_ (responseObserver_error o response) in
  let exception := match r with
                   | Ret _ => VUndefined
                   | Throw ex => ex
                   end in
  fire cs POST_REQUEST_ERROR [response] ;;;
  fire cs POST_REQUEST [response] ;;;
  if truthy exception then throw exception else ret tt.

(** [onLoad], the handler of the [load] event. *)
Definition onLoad (cs : channels) (o : observer) (req_url : value) (x : xhr)
  : M (world U) unit :=
  let response := load_response req_url x in
  if isSuccess (fst (normalize x)) then
    fire cs POST_REQUEST_SUCCESS [response] ;;;
    fire cs POST_REQUEST [response] ;;;
    responseObserver_next o response ;;;
    responseObserver_complete o ;;;
    ret tt
  else error_branch cs o response.

(** [onError], the handler of the [error] event. *)
Definition onError (cs : channels) (o : observer) (x : xhr) (err : value)
  : M (world U) unit :=
  error_branch cs o (error_response x err).

(** How the transport completes a request. *)
Inductive completion : Type :=
  | LoadEvent (x : xhr)
  | ErrorEvent (x : xhr) (err : value).

Definition complete (cs : channels) (o : observer) (req_url : value)
           (c : completion) : M (world U) unit :=
  match c with
  | LoadEvent x => onLoad cs o req_url x
  | ErrorEvent x err => onError cs o x err
  end.

(** The response handed to the lifecycle events, the outcome-specific event
    of a completion, and whether the observer is told of an error before
    the events are published. *)
Definition response_of (req_url : value) (c : completion) : value :=
  match c with
  | LoadEvent x => load_response req_url x
  | ErrorEvent x err => error_response x err
  end.

Definition succeeded (c : completion) : bool :=
  match c with
  | LoadEvent x => isSuccess (fst (normalize x))
  | ErrorEvent _ _ => false
  end.

Definition outcome_event (c : completion) : lifecycle :=
  if succeeded c then POST_REQUEST_SUCCESS else POST_REQUEST_ERROR.

End Connection.

Arguments observer : clear implicits.

End Xhr.

(* ===================================================================== *)
(** * [Http.request] *)
(* ===================================================================== *)

Module Request.

(** [prop in obj]: a [TypeError] on a primitive. *)
Definition has_property {S} (prop : string) (obj : value) : M S bool :=
  match obj with
  | VObj fs => ret (bool_decide (is_Some (assoc prop fs)))
  | VArr _ | VFun _ => ret false
  | _ => throw (type_error "Cannot use 'in' operator")
  end.

(** [Http.checkForResponseOptions(obj)] *)
Fixpoint checkForResponseOptions_loop {S} (properties : list string) (obj : value)
  : M S bool :=
  match properties with
  | [] => ret false
  | prop :: rest =>
      let! found := has_property prop obj in
      if found then ret true else checkForResponseOptions_loop rest obj
  end.

Definition checkForResponseOptions {S} (obj : value) : M S bool :=
  checkForResponseOptions_loop ["mapper"; "promise"; "timeout"] obj.

Section Http.

Context {S Obs : Type}.

(** The request factory of [@ramonornela/url-resolver], when injected:
    [getMetadata().has(url)] and [create(url, params, options)]. *)
Record factory : Type := Factory {
  metadata_has : string -> bool;
  create : string -> value -> value -> M S value
}.

Variable requestFactory : option factory.

(** [this.http.request(url, options)] of [@angular/http] and the [map]
    operator of rxjs, which builds a new observable and leaves its source
    as it was. *)
Variable http_request : value -> value -> M S Obs.
Variable map : Obs -> (value -> M S value) -> Obs.

(** [Mapper] is not part of the sources at hand: what [instanceof Mapper]
    answers and what [mapper.transform(resp)] does are left open. *)
Variable instanceof_Mapper : value -> bool.
Variable mapper_transform : value -> value -> M S value.

(** Lines 62-74 of [request]: the url, the options and the response options
    the rest of the method works with. *)
Definition prepare (url params options responseOptions : value)
  : M S (value * value * value) :=
  let! swap := if truthy options then checkForResponseOptions options
               else ret false in
  let '(options, responseOptions) :=
    if swap then (VNull, options) else (options, responseOptions) in
  let responseOptions :=
    if truthy responseOptions then responseOptions else VObj [] in
  match url, requestFactory with
  | VStr u, Some f =>
      if metadata_has f u then
        let! url' := create f u params options in
        ret (url', VNull, responseOptions)
      else ret (url, options, responseOptions)
  | _, _ => ret (url, options, responseOptions)
  end.

(** [Http.request(url, params, options, responseOptions)] *)
Definition request (url params options responseOptions : value) : M S Obs :=
  let! p := prepare url params options responseOptions in
  let '(url, options, responseOptions) := p in
  let! responseObservable := http_request url options in
  let mapper := get_field "mapper" responseOptions in
  let _ := if instanceof_Mapper mapper
           then map responseObservable (mapper_transform mapper)
           else responseObservable in
  ret responseObservable.

End Http.

Arguments factory : clear implicits.

End Request.

(* ===================================================================== *)
(** * The mappers: [ModelCollection] and [ModelMultiple] *)
(* ===================================================================== *)

Module Mapper.

(** An instance of [ModelCollection]: its two private fields. *)
Record ModelCollection : Type := MkModelCollection {
  mc_model : value;
  mc_path : option string
}.

(** [new ModelCollection(model, path)] *)
Definition ModelCollection_new (model : value) (path : option string)
  : outcome ModelCollection :=
  if negb (String.eqb (typeof model) "object") && is_null model
  then Throw (js_error "Data type model invalid")
  else Ret (MkModelCollection model path).

(** [if (this.path)]: an absent or empty path is not followed. *)
Definition path_given (path : option string) : option string :=
  match path with
  | Some p => if String.eqb p "" then None else Some p
  | None => None
  end.

(** One rule of a mapper specification ([MapperOptions]). *)
Record MapperOptions : Type := MkMapperOptions {
  mo_type : string;
  mo_model : value;
  mo_path : option string
}.

(** [TypeModel] and the two classes registered under its names. *)
Definition TypeModel_Simple : string := "simple".
Definition TypeModel_Collection : string := "collection".
Definition ModelSimple_class : value := VFun 1.
Definition ModelCollection_class : value := VFun 2.

(** An instance of [ModelMultiple]: the specification, as its keys are
    enumerated by [for ... in], and the registered types. *)
Record ModelMultiple : Type := MkModelMultiple {
  mm_mapper : list (string * MapperOptions);
  mm_types : gmap string value
}.

(** [addType(type, model)] *)
Definition addType (self : ModelMultiple) (type : string) (model : value)
  : ModelMultiple :=
  MkModelMultiple (mm_mapper self) (<[type := model]> (mm_types self)).

(** [new ModelMultiple(mapper)] *)
Definition ModelMultiple_new (mapper : list (string * MapperOptions))
  : outcome ModelMultiple :=
  let self := MkModelMultiple mapper ∅ in
  Ret (addType (addType self TypeModel_Simple ModelSimple_class)
               TypeModel_Collection ModelCollection_class).

(** What every object inherits from [Object.prototype]: the methods of
    ECMAScript and of its Annex B, which are functions, and [__proto__],
    which reads as the prototype itself. *)
Definition Object_prototype_methods : list string :=
  ["constructor"; "hasOwnProperty"; "isPrototypeOf"; "propertyIsEnumerable";
   "toLocaleString"; "toString"; "valueOf"; "__defineGetter__";
   "__defineSetter__"; "__lookupGetter__"; "__lookupSetter__"].

Definition Object_prototype (name : string) : option value :=
  if bool_decide (name ∈ Object_prototype_methods) then Some (VFun 0)
  else if String.eqb name "__proto__" then Some (VObj [])
  else None.

(** [this.types[name]]: [types] is a plain object, so a name it does not
    hold itself is looked up in [Object.prototype]. *)
Definition type_of (self : ModelMultiple) (name : string) : value :=
  match mm_types self !! name with
  | Some model => model
  | None => default VUndefined (Object_prototype name)
  end.

Section Transform.

Context {S : Type}.

(** [data.json()] of [@angular/http], [jp.query] of the jsonpath package
    and [new model(x)] for a user class [model]. *)
Variable json : value -> M S value.
Variable jp_query : value -> string -> M S value.
Variable construct : value -> value -> M S value.

(** The loop of [ModelCollection.transform], with [models] as accumulator. *)
Fixpoint build (model : value) (result : list value) (models : list value)
  : M S (list value) :=
  match result with
  | [] => ret models
  | x :: rest =>
      let! m := construct model x in
      build model rest (models ++ [m])
  end.

(** What [transform] extracts from the response before looking at it. *)
Definition extract (self : ModelCollection) (data : value) : M S value :=
  let! result := json data in
  match path_given (mc_path self) with
  | Some p => jp_query result p
  | None => ret result
  end.

(** [ModelCollection.transform(data)] *)
Definition ModelCollection_transform (self : ModelCollection) (data : value)
  : M S value :=
  let! result := extract self data in
  match result with
  | VArr elems =>
      let! models := build (mc_model self) elems [] in
      ret (VArr models)
  | _ => throw (js_error "Returns should be Array")
  end.

(** [Mapper.create(type, model, path).transform(data)]; [Mapper] is not
    part of the sources at hand and is left open. *)
Variable create_transform : value -> value -> option string -> value -> M S value.

(** The [for ... in] loop of [ModelMultiple.transform]. *)
Fixpoint transform_loop (self : ModelMultiple)
         (keys : list (string * MapperOptions)) (data : value)
         (results : list (string * value)) : M S (list (string * value)) :=
  match keys with
  | [] => ret results
  | (key, rule) :: rest =>
      if negb (truthy (type_of self (mo_type rule))) then
        throw (js_error ("Type " +:+ mo_type rule +:+ " not exits"))
      else
        let! r := create_transform (type_of self (mo_type rule))
                                   (mo_model rule) (mo_path rule) data in
        transform_loop self rest data (set_assoc key r results)
  end.

(** [ModelMultiple.transform(data)] *)
Definition ModelMultiple_transform (self : ModelMultiple) (data : value)
  : M S value :=
  let! results := transform_loop self (mm_mapper self) data [] in
  ret (VObj results).

End Transform.

End Mapper.

(* ===================================================================== *)
(** * Properties *)
(* ===================================================================== *)

(** ** Computations *)

Lemma bind_ret {S A B} (c : M S A) (k : A -> M S B) s a s1 :
  c s = (Ret a, s1) -> bind c k s = k a s1.
Proof. intros H. unfold bind. now rewrite H. Qed.

Lemma bind_throw {S A B} (c : M S A) (k : A -> M S B) s e s1 :
  c s = (Throw e, s1) -> bind c k s = (Throw e, s1).
Proof. intros H. unfold bind. now rewrite H. Qed.

Lemma each_returns_length {S A B} (f : A -> M S B) xs s ys s' :
  each_returns f xs s ys s' -> length ys = length xs.
Proof. induction 1; simpl; congruence. Qed.

Lemma each_returns_app {S A B} (f : A -> M S B) xs1 xs2 s ys1 s1 ys2 s2 :
  each_returns f xs1 s ys1 s1 ->
  each_returns f xs2 s1 ys2 s2 ->
  each_returns f (xs1 ++ xs2) s (ys1 ++ ys2) s2.
Proof.
  induction 1 as [|x xs s0 y s0' ys s0'' Hx _ IH]; intros H2; simpl; [exact H2|].
  econstructor; [exact Hx | now apply IH].
Qed.

(** ** The topic bus *)

Module EventsFacts.
Import Events.

Section Bus.

Context {Handler : Type} `{EqDecision Handler} {St : Type}.
Variable call : Handler -> list value -> M St value.

Lemma push_lookup (cs : gmap string (list Handler)) topic t h :
  cs !! topic = Some t -> push topic cs h = <[topic := t ++ [h]]> cs.
Proof. intros H0. unfold push. now rewrite H0. Qed.

Lemma fold_push (hs : list Handler) : forall (cs : gmap string (list Handler)) topic t,
  cs !! topic = Some t ->
  fold_left (push topic) hs cs = <[topic := t ++ hs]> cs.
Proof.
  induction hs as [|h hs IH]; intros cs topic t Ht; simpl.
  - rewrite app_nil_r. symmetry. now apply insert_id.
  - rewrite (push_lookup _ _ _ _ Ht).
    rewrite (IH _ topic (t ++ [h])) by apply lookup_insert_eq.
    rewrite insert_insert_eq. now rewrite <- app_assoc.
Qed.

(** [subscribe] appends to the handlers the topic already has. *)
Lemma subscribe_lookup (cs : gmap string (list Handler)) topic hs :
  subscribe cs topic hs !! topic = Some (default [] (cs !! topic) ++ hs).
Proof.
  unfold subscribe. destruct (cs !! topic) as [t|] eqn:Ht; simpl.
  - rewrite (fold_push hs cs topic t Ht). apply lookup_insert_eq.
  - rewrite (fold_push hs _ topic []) by apply lookup_insert_eq.
    apply lookup_insert_eq.
Qed.

Lemma subscribe_lookup_ne (cs : gmap string (list Handler)) topic topic' hs :
  topic <> topic' -> subscribe cs topic hs !! topic' = cs !! topic'.
Proof.
  intros Hne. unfold subscribe. destruct (cs !! topic) as [t|] eqn:Ht.
  - rewrite (fold_push hs cs topic t Ht). now apply lookup_insert_ne.
  - rewrite (fold_push hs _ topic []) by apply lookup_insert_eq.
    rewrite insert_insert_eq. now apply lookup_insert_ne.
Qed.

Lemma publish_loop_returns args t : forall acc s rs s',
  each_returns (fun h => call h args) t s rs s' ->
  publish_loop call args t acc s = (Ret (acc ++ rs), s').
Proof.
  induction t as [|h t IH]; intros acc s rs s' Hrun; inversion Hrun; subst; simpl.
  - now rewrite app_nil_r.
  - erewrite bind_ret by eassumption.
    erewrite IH by eassumption. now rewrite <- app_assoc.
Qed.

Lemma indexOf_absent (h : Handler) t : h ∉ t -> indexOf h t = None.
Proof.
  induction t as [|x t IH]; intros Hnot; simpl; [reflexivity|].
  destruct (decide (x = h)) as [->|Hne].
  - exfalso. apply Hnot. constructor.
  - rewrite IH; [reflexivity|]. intros Hin. apply Hnot. now constructor.
Qed.

End Bus.


Definition two_handlers : gmap string (list nat) :=
  subscribe (subscribe ∅ "saved" [7%nat]) "saved" [3%nat].


End EventsFacts.

(** ** The topic bus with handlers that may use it *)

Module LiveFacts.
Import LiveEvents.

Section Bus.

Context {Handler : Type} `{EqDecision Handler} {St : Type}.
Variable inherited_function : string -> bool.
Variable call : Handler -> list value -> M (bus Handler St) value.

Local Abbreviation plain := (LiveEvents.plain inherited_function).
Local Abbreviation read := (LiveEvents.read inherited_function).
Local Abbreviation subscribe := (LiveEvents.subscribe inherited_function).
Local Abbreviation unsubscribe := (LiveEvents.unsubscribe inherited_function).
Local Abbreviation publish := (LiveEvents.publish inherited_function call).

Lemma plain_not_inherited topic : plain topic = true -> inherited_function topic = false.
Proof.
  unfold LiveEvents.plain. intros Hplain.
  destruct (inherited_function topic); [discriminate Hplain | reflexivity].
Qed.

Lemma read_absent (b : bus Handler St) topic :
  plain topic = true -> own b !! topic = None -> read b topic = Absent.
Proof.
  intros Hplain Hnone. unfold LiveEvents.read.
  now rewrite Hnone, (plain_not_inherited _ Hplain).
Qed.

Lemma read_own (b : bus Handler St) topic ref :
  own b !! topic = Some ref -> read b topic = Handlers ref.
Proof. intros Hown. unfold LiveEvents.read. now rewrite Hown. Qed.

(** While the handlers leave the array as it is, [forEach] meets each of
    them in turn. *)
Lemma walk_undisturbed ref t args suf : forall pre (b : bus Handler St) rs b' acc,
  t = pre ++ suf ->
  array_at b ref = t ->
  undisturbed call ref t args suf b rs b' ->
  walk call ref args (length suf) (length pre) acc b = (Ret (acc ++ rs), b').
Proof.
  induction suf as [|h suf IH]; intros pre b rs b' acc Ht Harr Hrun;
    inversion Hrun; subst; simpl.
  - now rewrite app_nil_r.
  - rewrite Harr, list_lookup_middle by reflexivity.
    erewrite bind_ret by eassumption.
    replace (S (length pre)) with (length (pre ++ [h]))
      by (rewrite length_app; simpl; lia).
    erewrite IH; [now rewrite <- List.app_assoc | | eassumption | eassumption].
    now rewrite <- List.app_assoc.
Qed.

Lemma undisturbed_length ref t args hs (b : bus Handler St) rs b' :
  undisturbed call ref t args hs b rs b' -> length rs = length hs.
Proof. induction 1; simpl; congruence. Qed.

Lemma push_all_appends topic ref hs : forall (b : bus Handler St),
  own b !! topic = Some ref ->
  exists b',
    push_all inherited_function topic hs b = (Ret tt, b')
    /\ own b' = own b
    /\ array_at b' ref = array_at b ref ++ hs
    /\ user b' = user b.
Proof.
  induction hs as [|h hs IH]; intros b Hown; simpl.
  - exists b. rewrite app_nil_r. now repeat split.
  - unfold bind, push. rewrite (read_own _ _ _ Hown).
    destruct (IH (Bus (own b) (<[ref := array_at b ref ++ [h]]> (arrays b))
                      (next b) (user b)) Hown)
      as [b' [Hrun [Ho [Ha Hu]]]].
    exists b'. rewrite Hrun. split; [reflexivity|]. split; [exact Ho|].
    split; [|exact Hu].
    rewrite Ha. unfold array_at at 1. simpl. rewrite lookup_insert_eq. simpl.
    now rewrite <- List.app_assoc.
Qed.

(** *** The bus as a map of channels *)

Lemma view_lookup (b : bus Handler St) topic : view b !! topic = channel b topic.
Proof. unfold view, channel. apply lookup_fmap. Qed.

Lemma channel_own (b : bus Handler St) topic ref :
  own b !! topic = Some ref -> channel b topic = Some (array_at b ref).
Proof. intros Hown. unfold channel. now rewrite Hown. Qed.

Lemma channel_none (b : bus Handler St) topic :
  own b !! topic = None -> channel b topic = None.
Proof. intros Hown. unfold channel. now rewrite Hown. Qed.

Lemma handlers_of_channel (b : bus Handler St) topic :
  handlers_of b topic = default [] (channel b topic).
Proof. unfold handlers_of, channel. now destruct (own b !! topic). Qed.

(** Writing the array of a topic changes the channel of that topic only. *)
Lemma store_channel (b : bus Handler St) topic ref t :
  well_formed b ->
  own b !! topic = Some ref ->
  channel (Bus (own b) (<[ref := t]> (arrays b)) (next b) (user b)) topic = Some t
  /\ (forall topic', topic <> topic' ->
        channel (Bus (own b) (<[ref := t]> (arrays b)) (next b) (user b)) topic'
        = channel b topic')
  /\ well_formed (Bus (own b) (<[ref := t]> (arrays b)) (next b) (user b)).
Proof.
  intros [Hlt Hinj] Hown. split; [|split].
  - unfold channel, array_at. simpl. rewrite Hown. simpl.
    now rewrite lookup_insert_eq.
  - intros topic' Hne. unfold channel. simpl.
    destruct (own b !! topic') as [ref'|] eqn:Hown'; [|reflexivity].
    simpl. f_equal. unfold array_at. simpl.
    rewrite lookup_insert_ne; [reflexivity|].
    intros ->. apply Hne. now apply (Hinj topic topic' ref').
  - split; [exact Hlt | exact Hinj].
Qed.

Lemma remove_channel (b : bus Handler St) topic :
  well_formed b ->
  channel (remove topic b) topic = None
  /\ (forall topic', topic <> topic' -> channel (remove topic b) topic' = channel b topic')
  /\ well_formed (remove topic b).
Proof.
  intros [Hlt Hinj]. split; [|split].
  - unfold channel, remove. simpl. now rewrite lookup_delete_eq.
  - intros topic' Hne. unfold channel, remove. simpl.
    now rewrite lookup_delete_ne by assumption.
  - split; simpl.
    + intros t r Hr. apply lookup_delete_Some in Hr as [_ Hr]. now apply (Hlt t).
    + intros t t' r Hr Hr'.
      apply lookup_delete_Some in Hr as [_ Hr].
      apply lookup_delete_Some in Hr' as [_ Hr'].
      now apply (Hinj t t' r).
Qed.

Lemma create_channel (b : bus Handler St) topic :
  well_formed b ->
  own b !! topic = None ->
  own (snd (create topic b)) !! topic = Some (next b)
  /\ array_at (snd (create topic b)) (next b) = []
  /\ (forall topic', topic <> topic' ->
        channel (snd (create topic b)) topic' = channel b topic')
  /\ well_formed (snd (create topic b))
  /\ user (snd (create topic b)) = user b.
Proof.
  intros [Hlt Hinj] Hnone. unfold create, modify. simpl.
  split; [apply lookup_insert_eq|].
  split; [unfold array_at; simpl; now rewrite lookup_insert_eq|].
  split; [|split; [|reflexivity]].
  - intros topic' Hne. unfold channel. simpl.
    rewrite lookup_insert_ne by assumption.
    destruct (own b !! topic') as [ref'|] eqn:Hown'; [|reflexivity].
    simpl. f_equal. unfold array_at. simpl.
    rewrite lookup_insert_ne; [reflexivity|].
    intros Heq. specialize (Hlt topic' ref' Hown'). lia.
  - split; simpl.
    + intros t r Hr. apply lookup_insert_Some in Hr as [[_ <-]|[_ Hr]]; [lia|].
      specialize (Hlt t r Hr). lia.
    + intros t t' r Hr Hr'.
      apply lookup_insert_Some in Hr as [[<- <-]|[Hne Hr]];
        apply lookup_insert_Some in Hr' as [[Heq Hr']|[Hne' Hr']].
      * exact Heq.
      * specialize (Hlt t' _ Hr'). lia.
      * subst. specialize (Hlt t _ Hr). lia.
      * now apply (Hinj t t' r).
Qed.

Lemma push_all_channel topic ref hs : forall (b : bus Handler St),
  well_formed b ->
  own b !! topic = Some ref ->
  exists b',
    push_all inherited_function topic hs b = (Ret tt, b')
    /\ channel b' topic = Some (array_at b ref ++ hs)
    /\ (forall topic', topic <> topic' -> channel b' topic' = channel b topic')
    /\ well_formed b'
    /\ user b' = user b.
Proof.
  induction hs as [|h hs IH]; intros b Hwf Hown; simpl.
  - exists b. rewrite app_nil_r, (channel_own _ _ _ Hown).
    split; [reflexivity|]. split; [reflexivity|]. split; [reflexivity|].
    split; [exact Hwf | reflexivity].
  - unfold bind, push. rewrite (read_own _ _ _ Hown).
    destruct (store_channel b topic ref (array_at b ref ++ [h]) Hwf Hown)
      as [Hat [Hother Hwf1]].
    destruct (IH _ Hwf1 Hown) as [b' [Hrun [Hat' [Hother' [Hwf' Hu]]]]].
    exists b'. rewrite Hrun. split; [reflexivity|].
    split; [|split; [|split; [exact Hwf' | exact Hu]]].
    + rewrite Hat'. unfold array_at at 1. simpl. rewrite lookup_insert_eq. simpl.
      now rewrite <- List.app_assoc.
    + intros topic' Hne. now rewrite Hother', Hother.
Qed.

(** [subscribe] on a plain topic returns; the topic then holds the handlers
    it had followed by the new ones, and the other channels are as they
    were. *)
Lemma subscribe_channels (b : bus Handler St) topic hs :
  well_formed b ->
  plain topic = true ->
  exists b',
    subscribe topic hs b = (Ret tt, b')
    /\ channel b' topic = Some (default [] (channel b topic) ++ hs)
    /\ (forall topic', topic <> topic' -> channel b' topic' = channel b topic')
    /\ well_formed b'
    /\ user b' = user b.
Proof.
  intros Hwf Hplain. unfold LiveEvents.subscribe.
  destruct (own b !! topic) as [ref|] eqn:Hown.
  - unfold bind. rewrite (read_own _ _ _ Hown).
    destruct (push_all_channel topic ref hs b Hwf Hown)
      as [b' [Hrun [Hat [Hother [Hwf' Hu]]]]].
    exists b'. rewrite Hrun, (channel_own _ _ _ Hown).
    split; [reflexivity|]. split; [exact Hat|]. split; [exact Hother|].
    split; [exact Hwf' | exact Hu].
  - unfold bind. rewrite (read_absent _ _ Hplain Hown).
    destruct (create_channel b topic Hwf Hown) as [Hown0 [Harr0 [Hother0 [Hwf0 Hu0]]]].
    destruct (create topic b) as [o b0] eqn:Hcreate.
    assert (Ho : o = Ret tt) by (unfold create, modify in Hcreate; congruence).
    subst o. simpl in *.
    destruct (push_all_channel topic (next b) hs b0 Hwf0 Hown0)
      as [b' [Hrun [Hat [Hother [Hwf' Hu]]]]].
    exists b'. rewrite Hrun, (channel_none _ _ Hown). simpl.
    split; [reflexivity|]. split; [now rewrite Hat, Harr0|].
    split; [|split; [exact Hwf' | congruence]].
    intros topic' Hne. now rewrite Hother, Hother0.
Qed.

(** On plain topics [subscribe] does to the channels what [Events.subscribe]
    does to the map of channels. *)
Lemma subscribe_refines (b : bus Handler St) topic hs :
  well_formed b ->
  plain topic = true ->
  exists b',
    subscribe topic hs b = (Ret tt, b')
    /\ view b' = Events.subscribe (view b) topic hs
    /\ well_formed b'
    /\ user b' = user b.
Proof.
  intros Hwf Hplain.
  destruct (subscribe_channels b topic hs Hwf Hplain)
    as [b' [Hrun [Hat [Hother [Hwf' Hu]]]]].
  exists b'. split; [exact Hrun|]. split; [|now split].
  apply map_eq. intros topic'. rewrite view_lookup.
  destruct (decide (topic = topic')) as [<-|Hne].
  - now rewrite EventsFacts.subscribe_lookup, view_lookup.
  - rewrite EventsFacts.subscribe_lookup_ne by assumption.
    now rewrite view_lookup, Hother.
Qed.

(** And so does [unsubscribe], with the answer of [Events.unsubscribe]. *)
Lemma unsubscribe_refines (b : bus Handler St) topic handler :
  well_formed b ->
  plain topic = true ->
  exists b',
    unsubscribe topic handler b
    = (Ret (fst (Events.unsubscribe (view b) topic handler)), b')
    /\ view b' = snd (Events.unsubscribe (view b) topic handler)
    /\ well_formed b'
    /\ user b' = user b.
Proof.
  intros Hwf Hplain. unfold LiveEvents.unsubscribe, Events.unsubscribe.
  rewrite view_lookup.
  destruct (own b !! topic) as [ref|] eqn:Hown.
  - rewrite (read_own _ _ _ Hown), (channel_own _ _ _ Hown).
    destruct handler as [h|].
    + destruct (Events.indexOf h (array_at b ref)) as [i|]; [|exists b; split; [reflexivity|]; split; [reflexivity|]; split; [exact Hwf | reflexivity]].
      destruct (store_channel b topic ref (Events.splice1 i (array_at b ref)) Hwf Hown)
        as [Hat [Hother Hwf1]].
      destruct (Events.splice1 i (array_at b ref)) as [|y t'] eqn:Hsplice.
      * destruct (remove_channel _ topic Hwf1) as [Hgone [Hrest Hwf2]].
        eexists. split; [reflexivity|]. split; [|split; [exact Hwf2 | reflexivity]].
        simpl. apply map_eq. intros topic'. rewrite view_lookup.
        destruct (decide (topic = topic')) as [<-|Hne].
        -- now rewrite Hgone, lookup_delete_eq.
        -- rewrite lookup_delete_ne by assumption.
           now rewrite Hrest, Hother, view_lookup.
      * eexists. split; [reflexivity|]. split; [|split; [exact Hwf1 | reflexivity]].
        simpl. apply map_eq. intros topic'. rewrite view_lookup.
        destruct (decide (topic = topic')) as [<-|Hne].
        -- now rewrite Hat, lookup_insert_eq.
        -- rewrite lookup_insert_ne by assumption.
           now rewrite Hother, view_lookup.
    + destruct (remove_channel b topic Hwf) as [Hgone [Hrest Hwf2]].
      eexists. split; [reflexivity|]. split; [|split; [exact Hwf2 | reflexivity]].
      simpl. apply map_eq. intros topic'. rewrite view_lookup.
      destruct (decide (topic = topic')) as [<-|Hne].
      * now rewrite Hgone, lookup_delete_eq.
      * rewrite lookup_delete_ne by assumption. now rewrite Hrest, view_lookup.
  - rewrite (read_absent _ _ Hplain Hown), (channel_none _ _ Hown).
    exists b. split; [reflexivity|]. split; [reflexivity|].
    split; [exact Hwf | reflexivity].
Qed.

(** With handlers that leave the bus alone, [forEach] is the loop over the
    handlers the array holds at the start. *)
Lemma walk_lift (call0 : Handler -> list value -> M St value) ref args suf :
  forall pre acc (b : bus Handler St),
    array_at b ref = pre ++ suf ->
    walk (fun h a => lift (call0 h a)) ref args (length suf) (length pre) acc b
    = lift (Events.publish_loop call0 args suf acc) b.
Proof.
  induction suf as [|h suf IH]; intros pre acc b Harr; simpl.
  - now destruct b.
  - rewrite Harr, list_lookup_middle by reflexivity.
    unfold bind, lift at 1 3.
    destruct (call0 h args (user b)) as [[r|e] s] eqn:Hcall; [|reflexivity].
    replace (S (length pre)) with (length (pre ++ [h]))
      by (rewrite length_app; simpl; lia).
    rewrite IH; [reflexivity|].
    unfold array_at in *. simpl. rewrite Harr. now rewrite <- List.app_assoc.
Qed.

(** And [publish], on a plain topic, is [Events.publish] on the map of
    channels. *)
Lemma publish_refines (call0 : Handler -> list value -> M St value)
      (b : bus Handler St) topic args :
  plain topic = true ->
  LiveEvents.publish inherited_function (fun h a => lift (call0 h a)) topic args b
  = lift (Events.publish call0 (view b) topic args) b.
Proof.
  intros Hplain. unfold LiveEvents.publish, Events.publish. rewrite view_lookup.
  destruct (own b !! topic) as [ref|] eqn:Hown.
  - rewrite (read_own _ _ _ Hown), (channel_own _ _ _ Hown).
    unfold bind at 1.
    pose proof (walk_lift call0 ref args (array_at b ref) [] [] b eq_refl) as Hwalk.
    simpl in Hwalk. rewrite Hwalk.
    unfold lift, bind.
    now destruct (Events.publish_loop call0 args (array_at b ref) [] (user b))
      as [[rs|e] s].
  - rewrite (read_absent _ _ Hplain Hown), (channel_none _ _ Hown).
    now destruct b.
Qed.

Lemma subscribe_appends (b : bus Handler St) topic hs :
  plain topic = true ->
  exists b',
    subscribe topic hs b = (Ret tt, b')
    /\ handlers_of b' topic = handlers_of b topic ++ hs.
Proof.
  intros Hplain. unfold LiveEvents.subscribe, handlers_of.
  destruct (own b !! topic) as [ref|] eqn:Hown.
  - unfold bind. rewrite (read_own _ _ _ Hown).
    destruct (push_all_appends topic ref hs b Hown) as [b' [Hrun [Ho [Ha _]]]].
    exists b'. rewrite Hrun, Ho, Hown. now split.
  - unfold bind. rewrite (read_absent _ _ Hplain Hown).
    unfold create, modify.
    destruct (push_all_appends topic (next b) hs
                (Bus (<[topic := next b]> (own b)) (<[next b := []]> (arrays b))
                     (S (next b)) (user b)))
      as [b' [Hrun [Ho [Ha _]]]]; [apply lookup_insert_eq|].
    exists b'. rewrite Hrun, Ho. simpl. rewrite lookup_insert_eq.
    split; [reflexivity|]. rewrite Ha. unfold array_at. simpl.
    now rewrite lookup_insert_eq.
Qed.

(** C7, as amended. On a plain topic that holds N handlers, N at least 1,
    each of which returns when its turn comes and leaves the handlers of
    the topic as they are: [publish] applies the N handlers in the order of
    the array to the same argument list and returns the array of their N
    return values in that order. On a plain topic that has no channel,
    [publish] returns [null]. The order of the array is the order of
    subscription: [subscribe] appends to the handlers the topic has. *)
Theorem publish_calls_every_handler (b : bus Handler St) topic args :
  plain topic = true ->
  (forall ref t rs b',
      own b !! topic = Some ref ->
      array_at b ref = t ->
      t <> [] ->
      undisturbed call ref t args t b rs b' ->
      publish topic args b = (Ret (VArr rs), b') /\ length rs = length t)
  /\ (own b !! topic = None -> publish topic args b = (Ret VNull, b))
  /\ (forall handlers,
      exists b',
        subscribe topic handlers b = (Ret tt, b')
        /\ handlers_of b' topic = handlers_of b topic ++ handlers).
Proof.
  intros Hplain. split; [|split].
  - intros ref t rs b' Hown Harr _ Hrun. split.
    + unfold LiveEvents.publish. rewrite (read_own _ _ _ Hown), Harr.
      erewrite bind_ret; [reflexivity|].
      now apply (walk_undisturbed ref t args t [] b rs b' []).
    + eapply undisturbed_length; eassumption.
  - intros Hnone. unfold LiveEvents.publish.
    now rewrite (read_absent _ _ Hplain Hnone).
  - intros handlers. now apply subscribe_appends.
Qed.

(** C8, where the code departs from it. A topic that was never subscribed
    and names a function that arrays inherit is found by [unsubscribe]:
    without a handler the answer is [true], though nothing is removed, and
    with a handler the call raises. *)
Theorem unsubscribe_inherited_name (b : bus Handler St) topic :
  inherited_function topic = true ->
  own b !! topic = None ->
  unsubscribe topic None b = (Ret true, b)
  /\ forall h,
       unsubscribe topic (Some h) b
       = (Throw (type_error "t.indexOf is not a function"), b).
Proof.
  intros Hinh Hnone. unfold LiveEvents.unsubscribe, LiveEvents.read.
  rewrite Hnone, Hinh. now split.
Qed.

(** On a plain topic: unsubscribing its only handler, by passing it,
    answers [true] and leaves the topic without a channel, so that
    [publish] then returns [null]; unsubscribing from a topic that has no
    channel, or a handler the topic does not hold, answers [false] and
    changes nothing. *)
Theorem unsubscribe_on_plain_topic (b : bus Handler St) topic :
  plain topic = true ->
  (forall ref h,
      own b !! topic = Some ref ->
      array_at b ref = [h] ->
      exists b',
        unsubscribe topic (Some h) b = (Ret true, b')
        /\ own b' !! topic = None
        /\ forall args, publish topic args b' = (Ret VNull, b'))
  /\ (own b !! topic = None ->
      forall handler, unsubscribe topic handler b = (Ret false, b))
  /\ (forall ref h,
      own b !! topic = Some ref ->
      h ∉ array_at b ref ->
      unsubscribe topic (Some h) b = (Ret false, b)).
Proof.
  intros Hplain. split; [|split].
  - intros ref h Hown Harr. eexists. split; [|split].
    + unfold LiveEvents.unsubscribe. rewrite (read_own _ _ _ Hown), Harr. simpl.
      destruct (decide (h = h)); [reflexivity | congruence].
    + simpl. apply lookup_delete_eq.
    + intros args. unfold LiveEvents.publish. rewrite read_absent;
        [reflexivity | exact Hplain | simpl; apply lookup_delete_eq].
  - intros Hnone handler. unfold LiveEvents.unsubscribe.
    now rewrite (read_absent _ _ Hplain Hnone).
  - intros ref h Hown Hnot. unfold LiveEvents.unsubscribe.
    rewrite (read_own _ _ _ Hown).
    now rewrite (EventsFacts.indexOf_absent h _ Hnot).
Qed.

End Bus.

(** A bus of numbered handlers that keeps the list of the calls made.
    Handler 0 raises, handler 1 unsubscribes itself from [saved] and
    returns 1, and any other handler returns its number. *)
Definition quiet_bus : bus nat (list nat) := Bus ∅ ∅ 0 [].

Definition noted (h : nat) (b : bus nat (list nat)) : bus nat (list nat) :=
  Bus (own b) (arrays b) (next b) (user b ++ [h]).

Definition numbered (h : nat) (args : list value) : M (bus nat (list nat)) value :=
  match h with
  | O => fun b => (Throw (js_error "refused"), noted h b)
  | 1%nat => fun b =>
      let '(_, b1) := LiveEvents.unsubscribe es5 "saved" (Some 1%nat) (noted h b) in
      (Ret (VNum 1), b1)
  | _ => fun b => (Ret (VNum (Z.of_nat h)), noted h b)
  end.

Definition after_subscribe (hs : list nat) : bus nat (list nat) :=
  snd (LiveEvents.subscribe es5 "saved" hs quiet_bus).

Lemma publish_calls_every_handler_witness :
  (LiveEvents.publish es5 numbered "saved" [VStr "x"] (after_subscribe [7; 3]%nat)
   = (Ret (VArr [VNum 7; VNum 3]), noted 3 (noted 7 (after_subscribe [7; 3]%nat)))
   /\ length [VNum 7; VNum 3] = length [7; 3]%nat)
  /\ LiveEvents.publish es5 numbered "closed" [VStr "x"] (after_subscribe [7; 3]%nat)
     = (Ret VNull, after_subscribe [7; 3]%nat).
Proof.
  destruct (publish_calls_every_handler es5 numbered (after_subscribe [7; 3]%nat)
              "saved" [VStr "x"]) as [Hall _]; [reflexivity|].
  destruct (publish_calls_every_handler es5 numbered (after_subscribe [7; 3]%nat)
              "closed" [VStr "x"]) as [_ [Hnone _]]; [reflexivity|].
  split; [|apply Hnone; reflexivity].
  apply (Hall 0%nat [7; 3]%nat).
  - reflexivity.
  - reflexivity.
  - discriminate.
  - eapply undisturbed_cons; [reflexivity | reflexivity |].
    eapply undisturbed_cons; [reflexivity | reflexivity |].
    apply undisturbed_nil.
Defined.

(** C7 as first stated fails when a handler raises: [publish] raises too,
    and the handlers after that one are not called. It fails as well when
    a handler unsubscribes itself: of the two handlers of [saved], each of
    which returns, the second is passed over, and one value is returned. *)
Lemma publish_misses_handlers :
  (handlers_of (after_subscribe [7; 0; 3]%nat) "saved" = [7; 0; 3]%nat
   /\ fst (LiveEvents.publish es5 numbered "saved" [] (after_subscribe [7; 0; 3]%nat))
      = Throw (js_error "refused")
   /\ user (snd (LiveEvents.publish es5 numbered "saved" []
                                    (after_subscribe [7; 0; 3]%nat)))
      = [7; 0]%nat)
  /\ (handlers_of (after_subscribe [1; 2]%nat) "saved" = [1; 2]%nat
      /\ fst (LiveEvents.publish es5 numbered "saved" [] (after_subscribe [1; 2]%nat))
         = Ret (VArr [VNum 1])
      /\ user (snd (LiveEvents.publish es5 numbered "saved" []
                                       (after_subscribe [1; 2]%nat)))
         = [1%nat]).
Proof. vm_compute. repeat split. Qed.

Lemma unsubscribe_inherited_name_witness :
  LiveEvents.unsubscribe es5 "constructor" None quiet_bus = (Ret true, quiet_bus)
  /\ forall h,
       LiveEvents.unsubscribe es5 "constructor" (Some h) quiet_bus
       = (Throw (type_error "t.indexOf is not a function"), quiet_bus).
Proof.
  apply (unsubscribe_inherited_name es5 quiet_bus "constructor"); reflexivity.
Defined.

Lemma unsubscribe_on_plain_topic_witness :
  (exists b',
     LiveEvents.unsubscribe es5 "saved" (Some 7%nat) (after_subscribe [7%nat])
     = (Ret true, b')
     /\ own b' !! "saved" = None
     /\ forall args, LiveEvents.publish es5 numbered "saved" args b' = (Ret VNull, b'))
  /\ LiveEvents.unsubscribe es5 "closed" (Some 7%nat) (after_subscribe [7%nat])
     = (Ret false, after_subscribe [7%nat])
  /\ LiveEvents.unsubscribe es5 "saved" (Some 5%nat) (after_subscribe [7%nat])
     = (Ret false, after_subscribe [7%nat]).
Proof.
  destruct (unsubscribe_on_plain_topic es5 numbered (after_subscribe [7%nat]) "saved")
    as [Honly [_ Hmissing]]; [reflexivity|].
  destruct (unsubscribe_on_plain_topic es5 numbered (after_subscribe [7%nat]) "closed")
    as [_ [Hunknown _]]; [reflexivity|].
  split; [|split].
  - apply (Honly 0%nat 7%nat); reflexivity.
  - apply Hunknown. reflexivity.
  - apply (Hmissing 0%nat 5%nat); [reflexivity|].
    intros Hin. apply list_elem_of_singleton in Hin. discriminate Hin.
Defined.

End LiveFacts.

(** ** The mappers *)

Module MapperFacts.
Import Mapper.

(** No value is at once of a type other than ['object'] and [null]. *)
Lemma model_guard_never_holds (model : value) :
  negb (String.eqb (typeof model) "object") && is_null model = false.
Proof. destruct model; reflexivity. Qed.

(** C10. The [ModelCollection] constructor returns an instance for every
    model argument: its guard asks for a value whose [typeof] is not
    ['object'] and which is [null], which no value is, so the branch that
    raises 'Data type model invalid' is never taken. *)
Theorem ModelCollection_new_accepts_all (model : value) (path : option string) :
  negb (String.eqb (typeof model) "object") && is_null model = false
  /\ ModelCollection_new model path = Ret (MkModelCollection model path).
Proof.
  split; [apply model_guard_never_holds|].
  unfold ModelCollection_new. now rewrite model_guard_never_holds.
Qed.

Section Transform.

Context {S : Type}.
Variable json : value -> M S value.
Variable jp_query : value -> string -> M S value.
Variable construct : value -> value -> M S value.
Variable create_transform : value -> value -> option string -> value -> M S value.

Lemma build_returns model elems : forall acc s ms s',
  each_returns (construct model) elems s ms s' ->
  build construct model elems acc s = (Ret (acc ++ ms), s').
Proof.
  induction elems as [|x elems IH]; intros acc s ms s' Hrun;
    inversion Hrun; subst; simpl.
  - now rewrite app_nil_r.
  - erewrite bind_ret by eassumption.
    erewrite IH by eassumption. now rewrite <- app_assoc.
Qed.

(** C4. [ModelCollection.transform] raises the error 'Returns should be
    Array' when the value it extracts is not an array; when it is one, and
    the model constructor returns for each element, the result is the array
    of the instances built from the elements, in their order; when the path
    is followed and the query matches nothing (the empty array), the result
    is the empty array. *)
Theorem ModelCollection_transform_spec (self : ModelCollection) (data : value) (s : S) :
  (forall result s1,
      extract json jp_query self data s = (Ret result, s1) ->
      isArray result = false ->
      ModelCollection_transform json jp_query construct self data s
      = (Throw (js_error "Returns should be Array"), s1))
  /\ (forall elems s1 models s2,
      extract json jp_query self data s = (Ret (VArr elems), s1) ->
      each_returns (construct (mc_model self)) elems s1 models s2 ->
      ModelCollection_transform json jp_query construct self data s
      = (Ret (VArr models), s2)
      /\ length models = length elems)
  /\ (forall body s0 p s1,
      json data s = (Ret body, s0) ->
      path_given (mc_path self) = Some p ->
      jp_query body p s0 = (Ret (VArr []), s1) ->
      ModelCollection_transform json jp_query construct self data s
      = (Ret (VArr []), s1)).
Proof.
  split; [|split].
  - intros result s1 Hex Harr. unfold ModelCollection_transform.
    rewrite (bind_ret _ _ _ _ _ Hex).
    destruct result; try reflexivity. discriminate Harr.
  - intros elems s1 models s2 Hex Hrun. split.
    + unfold ModelCollection_transform. rewrite (bind_ret _ _ _ _ _ Hex).
      erewrite bind_ret by (eapply build_returns; eassumption).
      reflexivity.
    + eapply each_returns_length; eassumption.
  - intros body s0 p s1 Hjson Hpath Hq. unfold ModelCollection_transform.
    assert (Hex : extract json jp_query self data s = (Ret (VArr []), s1)).
    { unfold extract. rewrite (bind_ret _ _ _ _ _ Hjson). now rewrite Hpath. }
    rewrite (bind_ret _ _ _ _ _ Hex). reflexivity.
Qed.

Lemma transform_loop_app self pre : forall rest data acc s rs s1,
  transform_loop create_transform self pre data acc s = (Ret rs, s1) ->
  transform_loop create_transform self (pre ++ rest) data acc s
  = transform_loop create_transform self rest data rs s1.
Proof.
  induction pre as [|[key rule] pre IH]; intros rest data acc s rs s1 Hpre; simpl in *.
  - unfold ret in Hpre. now inversion Hpre.
  - destruct (negb (truthy (type_of self (mo_type rule)))).
    + discriminate Hpre.
    + unfold bind in *.
      destruct (create_transform _ _ _ data s) as [[r|e] s0]; [|discriminate Hpre].
      now apply IH.
Qed.

(** What a fresh [ModelMultiple] finds under a name it has not registered
    and does not inherit. *)
Lemma fresh_types mapper self name :
  ModelMultiple_new mapper = Ret self ->
  name <> TypeModel_Simple -> name <> TypeModel_Collection ->
  Object_prototype name = None ->
  type_of self name = VUndefined.
Proof.
  intros Hnew Hs Hc Hproto. inversion Hnew; subst. unfold type_of, addType. simpl.
  rewrite lookup_insert_ne by congruence.
  rewrite lookup_insert_ne by congruence.
  now rewrite lookup_empty, Hproto.
Qed.

(** C5, as amended. Constructing a [ModelMultiple] never raises, whatever
    type names the specification mentions; a rule whose type name was never
    registered, and is not a name that objects inherit, makes [transform]
    raise 'Type ... not exits' when the loop reaches it, the rules before it
    having been transformed. *)
Theorem unregistered_type_raises_in_transform
        (pre post : list (string * MapperOptions)) key rule :
  exists self,
    ModelMultiple_new (pre ++ (key, rule) :: post) = Ret self
    /\ mm_mapper self = pre ++ (key, rule) :: post
    /\ forall data s rs s1,
         mo_type rule <> TypeModel_Simple ->
         mo_type rule <> TypeModel_Collection ->
         Object_prototype (mo_type rule) = None ->
         transform_loop create_transform self pre data [] s = (Ret rs, s1) ->
         ModelMultiple_transform create_transform self data s
         = (Throw (js_error ("Type " +:+ mo_type rule +:+ " not exits")), s1).
Proof.
  eexists. split; [reflexivity|]. split; [reflexivity|].
  intros data s rs s1 Hs Hc Hproto Hpre.
  unfold ModelMultiple_transform. simpl mm_mapper.
  apply bind_throw.
  rewrite (transform_loop_app _ pre _ data [] s rs s1 Hpre). simpl.
  erewrite fresh_types;
    [reflexivity | reflexivity | exact Hs | exact Hc | exact Hproto].
Qed.

End Transform.

(** A response whose [json()] is its body, a path query that finds the
    field [a] and nothing else, and a model class that wraps its argument. *)
Definition json_id (data : value) : M unit value := ret data.

Definition query_a (doc : value) (path : string) : M unit value :=
  if String.eqb path "$.a" then ret (get_field "a" doc) else ret (VArr []).

Definition wrap (model x : value) : M unit value :=
  ret (VObj [("of", x)]).

Definition two_items : value :=
  VObj [("a", VArr [VObj [("x", VNum 1)]; VObj [("x", VNum 2)]])].

Lemma ModelCollection_transform_witness :
  (ModelCollection_transform json_id query_a wrap
     (MkModelCollection (VFun 9) (Some "$.a")) two_items tt
   = (Ret (VArr [VObj [("of", VObj [("x", VNum 1)])];
                 VObj [("of", VObj [("x", VNum 2)])]]), tt)
   /\ length [VObj [("of", VObj [("x", VNum 1)])];
              VObj [("of", VObj [("x", VNum 2)])]]
      = length [VObj [("x", VNum 1)]; VObj [("x", VNum 2)]])
  /\ ModelCollection_transform json_id query_a wrap
       (MkModelCollection (VFun 9) None) two_items tt
     = (Throw (js_error "Returns should be Array"), tt)
  /\ ModelCollection_transform json_id query_a wrap
       (MkModelCollection (VFun 9) (Some "$.missing")) two_items tt
     = (Ret (VArr []), tt).
Proof.
  split; [|split].
  - apply (proj1 (proj2 (ModelCollection_transform_spec json_id query_a wrap
                           (MkModelCollection (VFun 9) (Some "$.a")) two_items tt))
             _ tt).
    + reflexivity.
    + repeat econstructor.
  - apply (proj1 (ModelCollection_transform_spec json_id query_a wrap
                    (MkModelCollection (VFun 9) None) two_items tt) two_items tt);
      reflexivity.
  - apply (proj2 (proj2 (ModelCollection_transform_spec json_id query_a wrap
                           (MkModelCollection (VFun 9) (Some "$.missing"))
                           two_items tt))
             two_items tt "$.missing" tt); reflexivity.
Defined.

(** Every rule is transformed to the name of its type. *)
Definition name_of_type (type model : value) (path : option string) (data : value)
  : M unit value := ret type.

Definition unknown_shape : list (string * MapperOptions) :=
  [("out", MkMapperOptions "paged" (VFun 9) None)].

(** C5 as first stated fails: a specification naming the unregistered type
    [paged] is accepted by the constructor and refused by [transform]. *)
Lemma unregistered_type_accepted_at_construction :
  exists self,
    ModelMultiple_new unknown_shape = Ret self
    /\ ModelMultiple_transform name_of_type self VNull tt
       = (Throw (js_error "Type paged not exits"), tt).
Proof. eexists. split; reflexivity. Qed.

(** A type name that every object inherits is not refused: [transform]
    goes on with the inherited function as the type. *)
Lemma inherited_type_is_not_refused :
  exists self,
    ModelMultiple_new [("out", MkMapperOptions "constructor" (VFun 9) None)] = Ret self
    /\ ModelMultiple_transform name_of_type self VNull tt
       = (Ret (VObj [("out", VFun 0)]), tt).
Proof. eexists. split; reflexivity. Qed.

Lemma unregistered_type_raises_in_transform_witness :
  exists self,
    ModelMultiple_new ([] ++ ("out", MkMapperOptions "paged" (VFun 9) None) :: [])
    = Ret self
    /\ ModelMultiple_transform name_of_type self VNull tt
       = (Throw (js_error "Type paged not exits"), tt).
Proof.
  destruct (unregistered_type_raises_in_transform name_of_type [] []
              "out" (MkMapperOptions "paged" (VFun 9) None))
    as [self [Hnew [_ Hraise]]].
  exists self. split; [exact Hnew|].
  apply (Hraise VNull tt [] tt);
    [discriminate | discriminate | reflexivity | reflexivity].
Defined.

End MapperFacts.

(** ** [Http.request] *)

Module RequestFacts.
Import Request.

Section Http.

Context {S Obs : Type}.
Variable requestFactory : option (factory S).
Variable http_request : value -> value -> M S Obs.
Variable map : Obs -> (value -> M S value) -> Obs.
Variable instanceof_Mapper : value -> bool.
Variable mapper_transform : value -> value -> M S value.

(** C9. When the response options carry a [Mapper] instance, [request]
    hands back exactly what [this.http.request] produced for the prepared
    url and options: the observable built by [map] is dropped, whatever
    [map] and the mapper do. *)
Theorem request_returns_transport_observable
        (url params options responseOptions : value) (s : S)
        (url' options' responseOptions' : value) (s1 : S) :
  prepare requestFactory url params options responseOptions s
  = (Ret (url', options', responseOptions'), s1) ->
  instanceof_Mapper (get_field "mapper" responseOptions') = true ->
  request requestFactory http_request map instanceof_Mapper mapper_transform
          url params options responseOptions s
  = http_request url' options' s1.
Proof.
  intros Hprep Hmapper. unfold request.
  rewrite (bind_ret _ _ _ _ _ Hprep). unfold bind, ret.
  destruct (http_request url' options' s1) as [[o|e] s2]; reflexivity.
Qed.

End Http.

(** An observable is the list of the values it emits; [map] emits the
    images of those the source emits for which the function returns. *)
Definition emit_mapped (o : list value) (f : value -> M unit value) : list value :=
  omap (fun v => match f v tt with
                 | (Ret v', _) => Some v'
                 | (Throw _, _) => None
                 end) o.

Definition raw_response : value := VObj [("body", VStr "raw")].

Definition transport (url options : value) : M unit (list value) :=
  ret [raw_response].

Definition is_tagged_mapper (v : value) : bool :=
  bool_decide (is_Some (match v with VObj fs => assoc "transform" fs | _ => None end)).

Definition to_mapped (mapper resp : value) : M unit value :=
  ret (VStr "mapped").

Definition with_mapper : value :=
  VObj [("mapper", VObj [("transform", VFun 4)])].

Lemma request_returns_transport_observable_witness :
  request None transport emit_mapped is_tagged_mapper to_mapped
          (VStr "/users") VUndefined VUndefined with_mapper tt
  = (Ret [raw_response], tt).
Proof.
  apply (request_returns_transport_observable None transport emit_mapped
           is_tagged_mapper to_mapped (VStr "/users") VUndefined VUndefined
           with_mapper tt (VStr "/users") VUndefined with_mapper tt).
  - reflexivity.
  - vm_compute. reflexivity.
Defined.

End RequestFacts.

(** ** Plugin dispatch *)

Module PipelineFacts.
Import Pipeline.

Section WithUser.

Context {U : Type}.
Variable code : nat -> callback U.

Lemma not_false_is_false (r : value) : r <> VBool false -> is_false r = false.
Proof. destruct r as [| |[|]| | | | | |]; simpl; congruence. Qed.

(** While no hook returns [false], the loop visits every plugin. *)
Lemma forEach_continue method req (ps : list (plugin U)) (u : U) rs u' :
  hooks_return method req ps u rs u' ->
  never_false rs ->
  forall tr,
    forEach (runEvent_body method req) ps (World tr false u)
    = (Ret tt, World (tr ++ calls method req rs) false u').
Proof.
  induction 1 as [u | p ps u rs u' Hnone _ IH | p ps f u r u1 rs u' Hsome Hf _ IH];
    intros Hnf tr; simpl.
  - now rewrite app_nil_r.
  - unfold runEvent_body, bind, ret. rewrite Hnone. simpl.
    now apply IH.
  - inversion Hnf as [|? ? Hr Hrs]; subst. simpl in Hr.
    unfold runEvent_body, bind, log, modify, lift, ret.
    rewrite Hsome. simpl. rewrite Hf, (not_false_is_false r Hr). simpl.
    rewrite (IH Hrs). now rewrite <- app_assoc.
Qed.

(** The first hook that returns [false] has the loop raise. *)
Lemma forEach_false method req (pre : list (plugin U)) (u : U) rs u1 p f u2 post :
  hooks_return method req pre u rs u1 ->
  never_false rs ->
  phooks p method = Some f ->
  f [req] u1 = (Ret (VBool false), u2) ->
  forall tr,
    forEach (runEvent_body method req) (pre ++ p :: post) (World tr false u)
    = (Throw (type_error "this.events.stop is not a function"),
       World (tr ++ calls method req (rs ++ [(pname p, VBool false)])) false u2).
Proof.
  induction 1 as [u | q ps u rs u' Hnone _ IH | q ps g u r u1 rs u' Hsome Hg _ IH];
    intros Hnf Hp Hf tr; simpl.
  - unfold runEvent_body, bind, log, modify, lift, stop, throw, ret.
    rewrite Hp. simpl. now rewrite Hf.
  - unfold runEvent_body, bind, ret. rewrite Hnone. simpl.
    now apply IH.
  - inversion Hnf as [|? ? Hr Hrs]; subst. simpl in Hr.
    unfold runEvent_body, bind, log, modify, lift, ret.
    rewrite Hsome. simpl. rewrite Hg, (not_false_is_false r Hr). simpl.
    rewrite (IH Hrs Hp Hf). now rewrite <- app_assoc.
Qed.

(** On the bus of a fresh [Http], each topic holds the dispatcher of its
    hook and nothing else. *)
Lemma Http_constructor_lookup (T : lifecycle) :
  Http_constructor (∅ : gmap string (list handler)) !! topic_name T
  = Some [HDispatch (hook_of T)].
Proof. destruct T; vm_compute; reflexivity. Qed.

Lemma fire_dispatch (plugins : list (plugin U)) (cs : gmap string (list handler))
      T req tr (u : U) out tr' u' :
  cs !! topic_name T = Some [HDispatch (hook_of T)] ->
  forEach (runEvent_body (hook_of T) req) plugins
          (World (tr ++ [Published (topic_name T) [req]]) false u)
  = (out, World tr' false u') ->
  fire code plugins cs T [req] (World tr false u) = (out, World tr' false u').
Proof.
  intros Hcs Hloop.
  unfold fire, Events.publish, bind, log, modify, ret. simpl. rewrite Hcs. simpl.
  unfold bind, runEvent_handler, bind, ret. simpl. rewrite Hloop.
  now destruct out as [[]|e].
Qed.

(** Firing an event on the bus of a fresh [Http] when a hook returns the
    literal [false]. *)
Lemma fire_false_return (T : lifecycle) (req : value)
      (pre post : list (plugin U)) (p : plugin U) (f : callback U)
      (tr : list label) (u u1 u2 : U) (rs : list (string * value)) :
  hooks_return (hook_of T) req pre u rs u1 ->
  never_false rs ->
  phooks p (hook_of T) = Some f ->
  f [req] u1 = (Ret (VBool false), u2) ->
  fire code (pre ++ p :: post) (Http_constructor ∅) T [req] (World tr false u)
  = (Throw (type_error "this.events.stop is not a function"),
     World (tr ++ Published (topic_name T) [req]
               :: calls (hook_of T) req (rs ++ [(pname p, VBool false)]))
           false u2).
Proof.
  intros Hpre Hnf Hp Hf.
  apply fire_dispatch; [apply Http_constructor_lookup|].
  rewrite (forEach_false _ _ _ _ _ _ _ _ _ post Hpre Hnf Hp Hf).
  now rewrite <- List.app_assoc.
Qed.

(** Firing an event on the bus of a fresh [Http] when no hook returns the
    literal [false]: every plugin that has the hook is called. *)
Lemma fire_all_hooks (T : lifecycle) (req : value) (ps : list (plugin U))
      (tr : list label) (u u' : U) (rs : list (string * value)) :
  hooks_return (hook_of T) req ps u rs u' ->
  never_false rs ->
  fire code ps (Http_constructor ∅) T [req] (World tr false u)
  = (Ret tt,
     World (tr ++ Published (topic_name T) [req] :: calls (hook_of T) req rs)
           false u').
Proof.
  intros Hall Hnf.
  apply fire_dispatch; [apply Http_constructor_lookup|].
  rewrite (forEach_continue _ _ _ _ _ _ Hall Hnf).
  now rewrite <- List.app_assoc.
Qed.

End WithUser.

End PipelineFacts.

(** ** The completion handlers *)

Module XhrFacts.
Import Pipeline Xhr.

(** A computation is silent when it publishes nothing: it only appends to
    the trace, and no label it appends is a [Published] one. *)
Definition silent {U A} (c : M (world U) A) : Prop :=
  forall w o w', c w = (o, w') ->
    exists t, trace w' = trace w ++ t /\ published t = [].

Lemma published_app (t1 t2 : list label) :
  published (t1 ++ t2) = published t1 ++ published t2.
Proof. apply omap_app. Qed.

Section Silence.

Context {U : Type}.
Variable code : nat -> callback U.
Variable plugins : list (plugin U).

Lemma silent_same {A} (c : M (world U) A) :
  (forall w o w', c w = (o, w') -> trace w' = trace w) -> silent c.
Proof.
  intros Hc w o w' Hrun. exists []. rewrite app_nil_r.
  split; [now apply (Hc w o w') | reflexivity].
Qed.

Lemma silent_ret {A} (a : A) : silent (ret a : M (world U) A).
Proof. apply silent_same. intros w o w' H0. now inversion H0. Qed.

Lemma silent_throw {A} (e : value) : silent (throw e : M (world U) A).
Proof. apply silent_same. intros w o w' H0. now inversion H0. Qed.

Lemma silent_lift {A} (c : M U A) : silent (lift c).
Proof.
  apply silent_same. intros w o w' H0. unfold lift in H0.
  destruct (c (ustate w)) as [o1 u1]. now inversion H0.
Qed.

Lemma silent_stop : silent (stop (U := U)).
Proof. apply silent_same. intros w o w' H0. now inversion H0. Qed.

Lemma silent_log (l : label) : published [l] = [] -> silent (log (U := U) l).
Proof.
  intros Hl w o w' H0. exists [l]. inversion H0; subst. now split.
Qed.

Lemma silent_bind {A B} (c : M (world U) A) (k : A -> M (world U) B) :
  silent c -> (forall a, silent (k a)) -> silent (bind c k).
Proof.
  intros Hc Hk w o w' Hrun. unfold bind in Hrun.
  destruct (c w) as [[a|e] w1] eqn:Hcw.
  - destruct (Hc _ _ _ Hcw) as [t1 [Ht1 Hp1]].
    destruct (Hk a _ _ _ Hrun) as [t2 [Ht2 Hp2]].
    exists (t1 ++ t2). rewrite Ht2, Ht1, <- List.app_assoc. split; [reflexivity|].
    now rewrite published_app, Hp1, Hp2.
  - inversion Hrun; subst. now apply (Hc _ _ _ Hcw).
Qed.

Lemma silent_try {A} (c : M (world U) A) : silent c -> silent (try_ c).
Proof.
  intros Hc w o w' Hrun. unfold try_ in Hrun.
  destruct (c w) as [o1 w1] eqn:Hcw. inversion Hrun; subst.
  now apply (Hc _ _ _ Hcw).
Qed.

Lemma silent_forEach (fn : plugin U -> M (world U) unit) ps :
  (forall p, silent (fn p)) -> silent (forEach fn ps).
Proof.
  intros Hfn. induction ps as [|p ps IH]; simpl.
  - apply silent_ret.
  - apply silent_bind; [apply Hfn | intros _; exact IH].
Qed.

Lemma silent_runEvent_body method req (p : plugin U) :
  silent (runEvent_body method req p).
Proof.
  unfold runEvent_body. destruct (phooks p method) as [f|]; [|apply silent_ret].
  apply silent_bind; [now apply silent_log|]. intros _.
  apply silent_bind; [apply silent_lift|]. intros r.
  destruct (is_false r); [apply silent_stop | apply silent_ret].
Qed.

Lemma silent_apply_handler h args : silent (apply_handler code plugins h args).
Proof.
  destruct h as [id|method]; simpl.
  - apply silent_bind; [now apply silent_log|]. intros _. apply silent_lift.
  - unfold runEvent_handler. apply silent_bind; [|intros _; apply silent_ret].
    apply silent_forEach. apply silent_runEvent_body.
Qed.

Lemma silent_publish_loop args t : forall acc,
  silent (Events.publish_loop (apply_handler code plugins) args t acc).
Proof.
  induction t as [|h t IH]; intros acc; simpl.
  - apply silent_ret.
  - apply silent_bind; [apply silent_apply_handler|]. intros r. apply IH.
Qed.

Lemma silent_publish (cs : gmap string (list handler)) topic args :
  silent (Events.publish (apply_handler code plugins) cs topic args).
Proof.
  unfold Events.publish. destruct (cs !! topic) as [t|]; [|apply silent_ret].
  apply silent_bind; [apply silent_publish_loop|]. intros rs. apply silent_ret.
Qed.

(** However its handlers end, firing an event publishes its topic once. *)
Lemma fire_publishes_once (cs : gmap string (list handler)) T args w o w' :
  fire code plugins cs T args w = (o, w') ->
  exists t, trace w' = trace w ++ Published (topic_name T) args :: t
            /\ published t = [].
Proof.
  unfold fire. intros Hrun. unfold bind at 1 in Hrun. simpl in Hrun.
  assert (Hrest : silent (Events.publish (apply_handler code plugins) cs
                            (topic_name T) args ;;; ret tt)).
  { apply silent_bind; [apply silent_publish | intros _; apply silent_ret]. }
  destruct (Hrest _ _ _ Hrun) as [t [Ht Hp]]. simpl in Ht.
  exists t. rewrite Ht, <- List.app_assoc. now split.
Qed.

(** An event fired and followed by silent work: one topic published. *)
Lemma fire_then_silent {A} (cs : gmap string (list handler)) T args
      (k : M (world U) A) w o w' :
  silent k ->
  (fire code plugins cs T args ;;; k) w = (o, w') ->
  exists t, trace w' = trace w ++ t /\ published t = [topic_name T].
Proof.
  intros Hk Hrun. unfold bind in Hrun.
  destruct (fire code plugins cs T args w) as [[[]|e] w1] eqn:Hfire;
    destruct (fire_publishes_once _ _ _ _ _ _ Hfire) as [t1 [Ht1 Hp1]].
  - destruct (Hk _ _ _ Hrun) as [t2 [Ht2 Hp2]].
    exists (Published (topic_name T) args :: t1 ++ t2).
    rewrite Ht2, Ht1, <- List.app_assoc. split; [reflexivity|].
    simpl. change (omap _ (t1 ++ t2)) with (published (t1 ++ t2)).
    now rewrite published_app, Hp1, Hp2.
  - inversion Hrun; subst. exists (Published (topic_name T) args :: t1).
    split; [exact Ht1|]. simpl. change (omap _ t1) with (published t1).
    now rewrite Hp1.
Qed.

End Silence.

(** The body [onLoad] reads on a status other than 204: the [response]
    of the xhr, or its [responseText] when [response] is [undefined], with
    the XSSI guard taken off a text. *)
Definition body_read (x : xhr) : value :=
  match xhr_response x with
  | VUndefined => VStr (strip_xssi (xhr_responseText x))
  | VStr s => VStr (strip_xssi s)
  | r => r
  end.

Section Connection.

Context {U : Type}.
Variable code : nat -> callback U.
Variable plugins : list (plugin U).
Variable isSuccess : Z -> bool.
Variable fromResponseHeaderString : string -> value.
Variable baseResponseOptions : option (value -> value).
Variable new_Response : value -> value.

Local Abbreviation fire := (Pipeline.fire code plugins).
Local Abbreviation complete :=
  (Xhr.complete code plugins isSuccess fromResponseHeaderString
                baseResponseOptions new_Response).
Local Abbreviation response_of :=
  (Xhr.response_of isSuccess fromResponseHeaderString baseResponseOptions
                   new_Response).
Local Abbreviation onLoad :=
  (Xhr.onLoad code plugins isSuccess fromResponseHeaderString
              baseResponseOptions new_Response).

Lemma silent_observer_next (o : observer U) v : silent (responseObserver_next o v).
Proof.
  apply silent_bind; [now apply silent_log|]. intros _.
  apply silent_bind; [apply silent_lift | intros _; apply silent_ret].
Qed.

Lemma silent_observer_error (o : observer U) v : silent (responseObserver_error o v).
Proof.
  apply silent_bind; [now apply silent_log|]. intros _.
  apply silent_bind; [apply silent_lift | intros _; apply silent_ret].
Qed.

Lemma silent_observer_complete (o : observer U) : silent (responseObserver_complete o).
Proof.
  apply silent_bind; [now apply silent_log|]. intros _.
  apply silent_bind; [apply silent_lift | intros _; apply silent_ret].
Qed.

(** Both handlers run [error_branch] unless the status is a success. *)
Lemma complete_error_branch cs (o : observer U) req_url c :
  succeeded isSuccess c = false ->
  complete cs o req_url c
  = error_branch code plugins cs o (response_of req_url c).
Proof.
  intros Hfail. destruct c as [x|x err]; [|reflexivity].
  unfold Xhr.succeeded in Hfail. unfold Xhr.complete, Xhr.response_of, Xhr.onLoad.
  now rewrite Hfail.
Qed.

(** What the observer's error callback leaves in the trace. *)
Lemma observer_error_trace (o : observer U) v w out w0 :
  responseObserver_error o v w = (out, w0) ->
  trace w0 = trace w ++ [ObserverError v].
Proof.
  unfold responseObserver_error, bind, log, modify, lift, ret. simpl.
  destruct (obs_error o [v] (ustate w)) as [[r|e] u1]; intros H0;
    now inversion H0.
Qed.

(** C1, as amended. The transport completes a request and the dispatch of
    the outcome-specific event returns: the topics published by the
    completion handler are that event and then POST_REQUEST, each once.
    The outcome-specific event is POST_REQUEST_SUCCESS, published first
    thing, on a success status; it is POST_REQUEST_ERROR, published once the
    observer has been told of the error, otherwise. *)
Theorem post_request_once_after_outcome_event
        (cs : gmap string (list handler)) (o : observer U) (req_url : value)
        (c : completion) (w : world U) :
  (succeeded isSuccess c = true ->
   forall w1,
     fire cs POST_REQUEST_SUCCESS [response_of req_url c] w = (Ret tt, w1) ->
     exists t,
       trace (snd (complete cs o req_url c w)) = trace w ++ t
       /\ published t = [topic_name POST_REQUEST_SUCCESS; topic_name POST_REQUEST])
  /\ (succeeded isSuccess c = false ->
      forall r w0 w1,
        try_ (responseObserver_error o (response_of req_url c)) w = (Ret r, w0) ->
        fire cs POST_REQUEST_ERROR [response_of req_url c] w0 = (Ret tt, w1) ->
        exists t,
          trace (snd (complete cs o req_url c w)) = trace w ++ t
          /\ published t = [topic_name POST_REQUEST_ERROR; topic_name POST_REQUEST]).
Proof.
  split.
  - intros Hok w1 Hfire. destruct c as [x|x err]; [|discriminate Hok].
    unfold Xhr.succeeded in Hok. unfold Xhr.response_of in Hfire.
    unfold Xhr.complete, Xhr.onLoad. rewrite Hok.
    rewrite (bind_ret _ _ _ _ _ Hfire).
    destruct (fire_publishes_once _ _ _ _ _ _ _ _ Hfire) as [t1 [Ht1 Hp1]].
    match goal with |- context [snd (?k w1)] =>
      destruct (k w1) as [out w'] eqn:Hrest end.
    apply fire_then_silent in Hrest.
    + destruct Hrest as [t2 [Ht2 Hp2]]. simpl.
      exists ((Published (topic_name POST_REQUEST_SUCCESS)
                 [Xhr.load_response isSuccess fromResponseHeaderString
                    baseResponseOptions new_Response req_url x] :: t1) ++ t2).
      rewrite Ht2, Ht1, <- List.app_assoc. split; [reflexivity|].
      rewrite published_app, Hp2. simpl.
      change (omap _ t1) with (published t1). now rewrite Hp1.
    + apply silent_bind; [apply silent_observer_next|]. intros _.
      apply silent_bind; [apply silent_observer_complete|]. intros _.
      apply silent_ret.
  - intros Hfail r w0 w1 Htry Hfire.
    rewrite (complete_error_branch _ _ _ _ Hfail). unfold error_branch.
    rewrite (bind_ret _ _ _ _ _ Htry).
    rewrite (bind_ret _ _ _ _ _ Hfire).
    destruct (silent_try _ (silent_observer_error o _) _ _ _ Htry)
      as [t0 [Ht0 Hp0]].
    destruct (fire_publishes_once _ _ _ _ _ _ _ _ Hfire) as [t1 [Ht1 Hp1]].
    match goal with |- context [snd (?k w1)] =>
      destruct (k w1) as [out w'] eqn:Hrest end.
    apply fire_then_silent in Hrest.
    + destruct Hrest as [t2 [Ht2 Hp2]]. simpl.
      exists (t0 ++ (Published (topic_name POST_REQUEST_ERROR)
                       [response_of req_url c] :: t1) ++ t2).
      rewrite Ht2, Ht1, Ht0, <- !List.app_assoc. split; [reflexivity|].
      rewrite !published_app, Hp0, Hp2. simpl.
      change (omap _ t1) with (published t1). now rewrite Hp1.
    + destruct (truthy _); [apply silent_throw | apply silent_ret].
Qed.

(** C2, as amended. In the error branch the observer's error callback
    raises a truthy value [e], and the dispatches of POST_REQUEST_ERROR and
    of POST_REQUEST return: the completion handler raises [e], and by then
    the observer has been told and the two events have been published, in
    that order. *)
Theorem observer_exception_raised_after_events
        (cs : gmap string (list handler)) (o : observer U) (req_url : value)
        (c : completion) (w w0 w1 w2 : world U) (e : value) :
  succeeded isSuccess c = false ->
  responseObserver_error o (response_of req_url c) w = (Throw e, w0) ->
  fire cs POST_REQUEST_ERROR [response_of req_url c] w0 = (Ret tt, w1) ->
  fire cs POST_REQUEST [response_of req_url c] w1 = (Ret tt, w2) ->
  truthy e = true ->
  complete cs o req_url c w = (Throw e, w2)
  /\ exists t,
       trace w2 = trace w ++ ObserverError (response_of req_url c) :: t
       /\ published t = [topic_name POST_REQUEST_ERROR; topic_name POST_REQUEST].
Proof.
  intros Hfail Hobs Hfire1 Hfire2 He. split.
  - rewrite (complete_error_branch _ _ _ _ Hfail). unfold error_branch.
    erewrite bind_ret by (unfold try_; rewrite Hobs; reflexivity).
    rewrite (bind_ret _ _ _ _ _ Hfire1), (bind_ret _ _ _ _ _ Hfire2).
    now rewrite He.
  - destruct (fire_publishes_once _ _ _ _ _ _ _ _ Hfire1) as [t1 [Ht1 Hp1]].
    destruct (fire_publishes_once _ _ _ _ _ _ _ _ Hfire2) as [t2 [Ht2 Hp2]].
    exists ((Published (topic_name POST_REQUEST_ERROR) [response_of req_url c] :: t1)
              ++ Published (topic_name POST_REQUEST) [response_of req_url c] :: t2).
    rewrite Ht2, Ht1, (observer_error_trace _ _ _ _ _ Hobs), <- !List.app_assoc.
    split; [reflexivity|].
    rewrite published_app. simpl.
    change (omap _ t1) with (published t1).
    change (omap _ t2) with (published t2). now rewrite Hp1, Hp2.
Qed.

(** C6, as amended. A status of 1223 or 204 is normalised to 204 with a
    [null] body, and [onLoad] runs alike on the two. On a status of 0 the
    body is what was received ([response], or [responseText] when there is
    no [response]), less its XSSI guard when it is text; the status becomes
    200 when that body is truthy and stays 0 when it is not, and with a
    truthy body [onLoad] runs on a status of 0 as it does on 200. *)
Theorem status_and_body_normalized (x : xhr) :
  (xhr_status x = 1223 \/ xhr_status x = 204 -> normalize x = (204, VNull))
  /\ (xhr_status x = 0 ->
      normalize x = (if truthy (body_read x) then 200 else 0, body_read x))
  /\ (forall cs (o : observer U) req_url,
        onLoad cs o req_url (with_status x 1223)
        = onLoad cs o req_url (with_status x 204))
  /\ (truthy (body_read x) = true ->
      forall cs (o : observer U) req_url,
        onLoad cs o req_url (with_status x 0)
        = onLoad cs o req_url (with_status x 200)).
Proof.
  assert (H0 : forall y, xhr_status y = 0 ->
               normalize y = (if truthy (body_read y) then 200 else 0, body_read y)).
  { intros y Hs. unfold normalize, body_read. rewrite Hs. simpl.
    destruct (xhr_response y); reflexivity. }
  assert (H200 : normalize (with_status x 200) = (200, body_read x)).
  { unfold normalize, body_read. simpl. destruct (xhr_response x); reflexivity. }
  split; [|split; [now apply H0|split]].
  - intros [Hs|Hs]; unfold normalize; rewrite Hs; reflexivity.
  - intros cs o req_url. unfold Xhr.onLoad, load_response. reflexivity.
  - intros Hbody cs o req_url. unfold Xhr.onLoad, load_response.
    rewrite (H0 (with_status x 0) eq_refl), H200.
    change (body_read (with_status x 0)) with (body_read x).
    rewrite Hbody. reflexivity.
Qed.

(** C3, where the code departs from it. On the bus of a fresh [Http], the
    hooks of an event that return values other than the literal [false],
    falsy ones included, let every plugin that has the hook be called. A
    hook that returns [false] on a success status makes the load handler
    raise a [TypeError], [Events] having no [stop]: the plugins after it
    are not called, POST_REQUEST is not published and the observer is not
    told. *)
Theorem false_return_ends_completion
        (o : observer U) (req_url : value) (c : completion)
        (pre post : list (plugin U)) (p : plugin U) (f : callback U)
        (tr : list label) (u u1 u2 : U) (rs : list (string * value)) :
  (forall T req ps u' rs',
      hooks_return (hook_of T) req ps u rs' u' ->
      never_false rs' ->
      Pipeline.fire code ps (Http_constructor ∅) T [req] (World tr false u)
      = (Ret tt,
         World (tr ++ Published (topic_name T) [req] :: calls (hook_of T) req rs')
               false u'))
  /\ (succeeded isSuccess c = true ->
      hooks_return postRequestSuccess (response_of req_url c) pre u rs u1 ->
      never_false rs ->
      phooks p postRequestSuccess = Some f ->
      f [response_of req_url c] u1 = (Ret (VBool false), u2) ->
      Xhr.complete code (pre ++ p :: post) isSuccess fromResponseHeaderString
                   baseResponseOptions new_Response (Http_constructor ∅)
                   o req_url c (World tr false u)
      = (Throw (type_error "this.events.stop is not a function"),
         World (tr ++ Published (topic_name POST_REQUEST_SUCCESS)
                                [response_of req_url c]
                   :: calls postRequestSuccess (response_of req_url c)
                            (rs ++ [(pname p, VBool false)]))
               false u2)).
Proof.
  split.
  - intros T req ps u' rs' Hall Hnf. now apply PipelineFacts.fire_all_hooks.
  - intros Hok Hpre Hnf Hp Hf. destruct c as [x|x err]; [|discriminate Hok].
    unfold Xhr.succeeded in Hok. unfold Xhr.response_of in *.
    unfold Xhr.complete, Xhr.onLoad. rewrite Hok. apply bind_throw.
    exact (PipelineFacts.fire_false_return code POST_REQUEST_SUCCESS _ pre post
             p f tr u u1 u2 rs Hpre Hnf Hp Hf).
Qed.

End Connection.

(** A concrete connection: statuses 200 to 299 are the successes, headers
    are not parsed, there are no base options and a response is the object
    of its options. User code keeps no state. *)
Definition is2xx (status : Z) : bool := Z.leb 200 status && Z.ltb status 300.

Definition run (plugins : list (plugin unit)) (cs : gmap string (list handler))
           (o : observer unit) (c : completion) : outcome unit * world unit :=
  Xhr.complete (fun _ _ => ret VUndefined) plugins is2xx (fun _ => VObj []) None
               (fun opts => opts) cs o (VStr "/users") c (World [] false tt).

Definition xhr_with (status : Z) (text : string) : xhr :=
  XHR status VUndefined text "" "" None (fun _ => VNull).

Definition hooked (name : string) (method : hook) (f : callback unit) : plugin unit :=
  Plugin name (fun h => if decide (h = method) then Some f else None).

Definition quiet_observer : observer unit :=
  Observer (fun _ => ret VUndefined) (fun _ => ret VUndefined)
           (fun _ => ret VUndefined).

Definition raising_observer (e : value) : observer unit :=
  Observer (fun _ => ret VUndefined) (fun _ => throw e) (fun _ => ret VUndefined).

Definition audit : plugin unit :=
  Plugin "audit" (fun _ => Some (fun _ => ret VUndefined)).

(** Status 0: the body decides. *)
Example status_0_with_body : normalize (xhr_with 0 "cached") = (200, VStr "cached").
Proof. reflexivity. Qed.

Example status_0_without_body : normalize (xhr_with 0 "") = (0, VStr "").
Proof. reflexivity. Qed.

Example status_1223 : normalize (xhr_with 1223 "ignored") = (204, VNull).
Proof. reflexivity. Qed.

(** The XSSI prefix goes, with or without its comma; other text stays. *)
Example xssi_prefix_stripped :
  strip_xssi (")]}'," +:+ String nl "[1]") = "[1]"
  /\ strip_xssi (")]}'" +:+ String nl "[1]") = "[1]"
  /\ strip_xssi ")]}'[1]" = ")]}'[1]".
Proof. repeat split. Qed.

Lemma status_and_body_normalized_witness :
  normalize (xhr_with 1223 "ignored") = (204, VNull)
  /\ normalize (xhr_with 0 "cached") = (200, VStr "cached")
  /\ normalize (xhr_with 0 "") = (0, VStr "").
Proof.
  destruct (status_and_body_normalized (U := unit) (fun _ _ => ret VUndefined) []
              is2xx (fun _ => VObj []) None (fun opts => opts)
              (xhr_with 1223 "ignored")) as [H1223 _].
  destruct (status_and_body_normalized (U := unit) (fun _ _ => ret VUndefined) []
              is2xx (fun _ => VObj []) None (fun opts => opts)
              (xhr_with 0 "cached")) as [_ [Hcached _]].
  destruct (status_and_body_normalized (U := unit) (fun _ _ => ret VUndefined) []
              is2xx (fun _ => VObj []) None (fun opts => opts)
              (xhr_with 0 "")) as [_ [Hempty _]].
  split; [apply H1223; now left|].
  split; [apply Hcached; reflexivity | apply Hempty; reflexivity].
Defined.

(** C6 as first stated fails on a status of 0 with a body that is nothing
    but the XSSI guard: the body received is not empty, and the status
    stays 0, the guard being stripped before the body is looked at. *)
Lemma guard_only_body_stays_0 :
  xhr_responseText (xhr_with 0 (")]}'" +:+ String nl EmptyString)) <> ""
  /\ normalize (xhr_with 0 (")]}'" +:+ String nl EmptyString)) = (0, VStr "").
Proof. split; [discriminate | reflexivity]. Qed.

Definition vetoing (name : string) : plugin unit :=
  Plugin name (fun h => match h with
                        | postRequestSuccess => Some (fun _ => ret (VBool false))
                        | _ => None
                        end).

Lemma false_return_ends_completion_witness :
  run ([audit] ++ vetoing "cache" :: [audit]) (Http_constructor ∅) quiet_observer
      (LoadEvent (xhr_with 200 "[]"))
  = (Throw (type_error "this.events.stop is not a function"),
     World ([] ++ Published "POST_REQUEST_SUCCESS"
                    [Xhr.response_of is2xx (fun _ => VObj []) None (fun opts => opts)
                       (VStr "/users") (LoadEvent (xhr_with 200 "[]"))]
               :: calls postRequestSuccess
                    (Xhr.response_of is2xx (fun _ => VObj []) None (fun opts => opts)
                       (VStr "/users") (LoadEvent (xhr_with 200 "[]")))
                    ([("audit", VUndefined)] ++ [("cache", VBool false)]))
           false tt).
Proof.
  apply (proj2 (false_return_ends_completion (fun _ _ => ret VUndefined)
                  is2xx (fun _ => VObj []) None (fun opts => opts)
                  quiet_observer (VStr "/users") (LoadEvent (xhr_with 200 "[]"))
                  [audit] [audit] (vetoing "cache") (fun _ => ret (VBool false))
                  [] tt tt tt [("audit", VUndefined)])).
  - reflexivity.
  - eapply hooks_call; [reflexivity | reflexivity | apply hooks_nil].
  - repeat constructor; discriminate.
  - reflexivity.
  - reflexivity.
Defined.

Lemma post_request_once_after_outcome_event_witness :
  (exists t,
     trace (snd (run [audit] (Http_constructor ∅) quiet_observer
                     (LoadEvent (xhr_with 200 "[]")))) = [] ++ t
     /\ published t = ["POST_REQUEST_SUCCESS"; "POST_REQUEST"])
  /\ (exists t,
        trace (snd (run [audit] (Http_constructor ∅)
                        (raising_observer (js_error "no handler"))
                        (ErrorEvent (xhr_with 0 "") (VStr "offline")))) = [] ++ t
        /\ published t = ["POST_REQUEST_ERROR"; "POST_REQUEST"]).
Proof.
  split.
  - eapply (proj1 (post_request_once_after_outcome_event
                     (fun _ _ => ret VUndefined) [audit] is2xx (fun _ => VObj [])
                     None (fun opts => opts) (Http_constructor ∅) quiet_observer
                     (VStr "/users") (LoadEvent (xhr_with 200 "[]"))
                     (World [] false tt))).
    + reflexivity.
    + reflexivity.
  - eapply (proj2 (post_request_once_after_outcome_event
                     (fun _ _ => ret VUndefined) [audit] is2xx (fun _ => VObj [])
                     None (fun opts => opts) (Http_constructor ∅)
                     (raising_observer (js_error "no handler"))
                     (VStr "/users") (ErrorEvent (xhr_with 0 "") (VStr "offline"))
                     (World [] false tt))).
    + reflexivity.
    + reflexivity.
    + reflexivity.
Defined.

(** C1 as first stated fails when a plugin raises in its
    [postRequestSuccess] hook: the load handler is left with that exception
    and POST_REQUEST is not published. *)
Lemma post_request_missing_when_hook_raises :
  let r := run [hooked "auth" postRequestSuccess (fun _ => throw (js_error "denied"))]
               (Http_constructor ∅) quiet_observer
               (LoadEvent (xhr_with 200 "[]")) in
  fst r = Throw (js_error "denied")
  /\ published (trace (snd r)) = ["POST_REQUEST_SUCCESS"]
  /\ ~ In "POST_REQUEST" (published (trace (snd r))).
Proof.
  vm_compute. split; [reflexivity|]. split; [reflexivity|].
  intros [H0|[]]. discriminate H0.
Qed.

Lemma observer_exception_raised_after_events_witness :
  exists w2,
    run [audit] (Http_constructor ∅) (raising_observer (js_error "no handler"))
        (LoadEvent (xhr_with 404 "gone"))
    = (Throw (js_error "no handler"), w2)
    /\ exists t,
         trace w2
         = [] ++ ObserverError
                   (Xhr.response_of is2xx (fun _ => VObj []) None (fun opts => opts)
                                    (VStr "/users") (LoadEvent (xhr_with 404 "gone")))
                 :: t
         /\ published t = ["POST_REQUEST_ERROR"; "POST_REQUEST"].
Proof.
  eexists.
  eapply (observer_exception_raised_after_events
            (fun _ _ => ret VUndefined) [audit] is2xx (fun _ => VObj [])
            None (fun opts => opts) (Http_constructor ∅)
            (raising_observer (js_error "no handler"))
            (VStr "/users") (LoadEvent (xhr_with 404 "gone"))
            (World [] false tt)).
  - reflexivity.
  - reflexivity.
  - reflexivity.
  - reflexivity.
  - reflexivity.
Defined.

(** C2 as first stated fails twice over. A falsy value raised by the error
    callback is kept and never raised again: the handler returns. And when
    a plugin raises in its [postRequestError] hook, POST_REQUEST is not
    published and what the handler raises is the hook's exception, not the
    callback's. *)
Lemma observer_exception_lost :
  (let r := run [audit] (Http_constructor ∅) (raising_observer VNull)
                (ErrorEvent (xhr_with 0 "") (VStr "offline")) in
   fst r = Ret tt
   /\ published (trace (snd r)) = ["POST_REQUEST_ERROR"; "POST_REQUEST"])
  /\ (let r := run [hooked "auth" postRequestError (fun _ => throw (js_error "denied"))]
                   (Http_constructor ∅) (raising_observer (js_error "no handler"))
                   (ErrorEvent (xhr_with 0 "") (VStr "offline")) in
      fst r = Throw (js_error "denied")
      /\ published (trace (snd r)) = ["POST_REQUEST_ERROR"]).
Proof. vm_compute. repeat split. Qed.

End XhrFacts.

(* ===================================================================== *)
(** * Further properties of the topic bus *)
(* ===================================================================== *)

Module EventsMore.
Import Events EventsFacts.

(** No topic is left with an empty handler array. *)
Definition no_empty_channel {Handler} (cs : gmap string (list Handler)) : Prop :=
  forall topic, cs !! topic <> Some [].

Section Bus.

Context {Handler : Type} `{EqDecision Handler} {St : Type}.
Variable call : Handler -> list value -> M St value.

Lemma subscribe_as_insert (cs : gmap string (list Handler)) topic hs :
  subscribe cs topic hs = <[topic := default [] (cs !! topic) ++ hs]> cs.
Proof.
  unfold subscribe. destruct (cs !! topic) as [t|] eqn:Ht; simpl.
  - apply (fold_push hs cs topic t Ht).
  - rewrite (fold_push hs _ topic []) by apply lookup_insert_eq.
    apply insert_insert_eq.
Qed.

(** Two subscriptions to a topic amount to one subscription of all the
    handlers, in the order given. *)
Theorem subscribe_twice (cs : gmap string (list Handler)) topic hs1 hs2 :
  subscribe (subscribe cs topic hs1) topic hs2 = subscribe cs topic (hs1 ++ hs2).
Proof.
  rewrite (subscribe_as_insert (subscribe cs topic hs1)), subscribe_lookup.
  rewrite !subscribe_as_insert, insert_insert_eq. simpl.
  now rewrite List.app_assoc.
Qed.

Lemma indexOf_first (h : Handler) l1 l2 :
  h ∉ l1 -> indexOf h (l1 ++ h :: l2) = Some (length l1).
Proof.
  induction l1 as [|x l1 IH]; intros Hnot; simpl.
  - destruct (decide (h = h)); [reflexivity | congruence].
  - destruct (decide (x = h)) as [->|Hne].
    + exfalso. apply Hnot. constructor.
    + rewrite IH; [reflexivity|]. intros Hin. apply Hnot. now constructor.
Qed.

Lemma splice1_middle (h : Handler) l1 l2 :
  splice1 (length l1) (l1 ++ h :: l2) = l1 ++ l2.
Proof.
  unfold splice1. induction l1 as [|x l1 IH]; simpl.
  - now rewrite drop_0.
  - now rewrite IH.
Qed.

(** [unsubscribe] removes the first occurrence of the handler and no other:
    the handlers before and after it keep their places, later copies of the
    handler included, and the topic goes when nothing is left. *)
Theorem unsubscribe_removes_first_occurrence
        (cs : gmap string (list Handler)) topic h l1 l2 :
  cs !! topic = Some (l1 ++ h :: l2) ->
  h ∉ l1 ->
  fst (unsubscribe cs topic (Some h)) = true
  /\ snd (unsubscribe cs topic (Some h)) !! topic
     = match l1 ++ l2 with
       | [] => None
       | _ :: _ => Some (l1 ++ l2)
       end.
Proof.
  intros Ht Hnot. unfold unsubscribe.
  rewrite Ht, (indexOf_first h l1 l2 Hnot), splice1_middle.
  destruct (l1 ++ l2) as [|y l]; simpl.
  - split; [reflexivity | apply lookup_delete_eq].
  - split; [reflexivity | apply lookup_insert_eq].
Qed.

Lemma unsubscribe_lookup_ne (cs : gmap string (list Handler)) topic topic' handler :
  topic <> topic' ->
  snd (unsubscribe cs topic handler) !! topic' = cs !! topic'.
Proof.
  intros Hne. unfold unsubscribe. destruct (cs !! topic) as [t|]; [|reflexivity].
  destruct handler as [h|]; simpl; [|now apply lookup_delete_ne].
  destruct (indexOf h t) as [i|]; [|reflexivity].
  destruct (splice1 i t); simpl;
    [now apply lookup_delete_ne | now apply lookup_insert_ne].
Qed.

Lemma subscribe_unsubscribe_map (cs : gmap string (list Handler)) topic h :
  h ∉ default [] (cs !! topic) ->
  cs !! topic <> Some [] ->
  unsubscribe (subscribe cs topic [h]) topic (Some h) = (true, cs).
Proof.
  intros Hnot Hne. unfold unsubscribe.
  rewrite subscribe_lookup, (indexOf_first h _ [] Hnot), splice1_middle.
  rewrite app_nil_r, subscribe_as_insert.
  destruct (cs !! topic) as [t|] eqn:Ht; simpl in *.
  - destruct t as [|y t]; [congruence|]. f_equal.
    rewrite insert_insert_eq. now apply insert_id.
  - f_equal. now apply delete_insert_id.
Qed.

(** Subscribing at least one handler, and unsubscribing, keep the channels
    free of empty handler arrays. *)
Theorem no_empty_channel_kept (cs : gmap string (list Handler)) topic :
  no_empty_channel cs ->
  (forall hs, hs <> [] -> no_empty_channel (subscribe cs topic hs))
  /\ (forall handler, no_empty_channel (snd (unsubscribe cs topic handler))).
Proof.
  intros Hinv. split.
  - intros hs Hhs topic'. destruct (decide (topic = topic')) as [<-|Hne].
    + rewrite subscribe_lookup. intros Heq. inversion Heq as [Happ].
      apply app_eq_nil in Happ as [_ ?]. contradiction.
    + rewrite subscribe_lookup_ne by assumption. apply Hinv.
  - intros handler topic'. destruct (decide (topic = topic')) as [<-|Hne].
    + unfold unsubscribe. destruct (cs !! topic) as [t|] eqn:Ht;
        [|simpl; rewrite Ht; discriminate].
      destruct handler as [h|]; simpl; [|now rewrite lookup_delete_eq].
      destruct (indexOf h t) as [i|]; [|simpl; apply Hinv].
      destruct (splice1 i t); simpl.
      * now rewrite lookup_delete_eq.
      * rewrite lookup_insert_eq. discriminate.
    + rewrite (unsubscribe_lookup_ne cs topic topic' handler Hne).
      apply Hinv.
Qed.


End Bus.

Lemma unsubscribe_removes_first_occurrence_witness :
  fst (unsubscribe ({[ "saved" := [7; 3; 7]%nat ]} : gmap string (list nat))
                   "saved" (Some 3%nat)) = true
  /\ snd (unsubscribe ({[ "saved" := [7; 3; 7]%nat ]} : gmap string (list nat))
                      "saved" (Some 3%nat)) !! "saved"
     = Some [7; 7]%nat.
Proof.
  apply (unsubscribe_removes_first_occurrence
           ({[ "saved" := [7; 3; 7]%nat ]} : gmap string (list nat))
           "saved" 3%nat [7%nat] [7%nat]).
  - vm_compute. reflexivity.
  - intros Hin. apply elem_of_cons in Hin as [Hin|Hin]; [discriminate Hin|].
    inversion Hin.
Defined.

Lemma no_empty_channel_kept_witness :
  (forall hs, hs <> [] -> no_empty_channel (subscribe two_handlers "closed" hs))
  /\ (forall handler,
        no_empty_channel (snd (unsubscribe two_handlers "closed" handler))).
Proof.
  apply (no_empty_channel_kept two_handlers "closed").
  intros topic. unfold two_handlers.
  destruct (decide ("saved" = topic)) as [<-|Hne].
  - rewrite !subscribe_lookup. discriminate.
  - rewrite !subscribe_lookup_ne by assumption. now rewrite lookup_empty.
Defined.


End EventsMore.

(* ===================================================================== *)
(** * Further properties of the topic bus, on plain topics *)
(* ===================================================================== *)

Module LiveMore.
Import LiveEvents LiveFacts.

Section Bus.

Context {Handler : Type} `{EqDecision Handler} {St : Type}.
Variable inherited_function : string -> bool.

Local Abbreviation plain := (LiveEvents.plain inherited_function).
Local Abbreviation subscribe := (LiveEvents.subscribe inherited_function).
Local Abbreviation unsubscribe := (LiveEvents.unsubscribe inherited_function).

(** On plain topics, [subscribe] and [unsubscribe] return and leave the
    channel of every other plain topic as it was. *)
Theorem plain_topics_apart (b : bus Handler St) topic topic' hs handler :
  well_formed b ->
  plain topic = true ->
  plain topic' = true ->
  topic <> topic' ->
  (exists b',
      subscribe topic hs b = (Ret tt, b')
      /\ channel b' topic' = channel b topic')
  /\ (exists r b',
      unsubscribe topic handler b = (Ret r, b')
      /\ channel b' topic' = channel b topic').
Proof.
  intros Hwf Hplain _ Hne. split.
  - destruct (subscribe_channels inherited_function b topic hs Hwf Hplain)
      as [b' [Hrun [_ [Hother _]]]].
    exists b'. split; [exact Hrun | now apply Hother].
  - destruct (unsubscribe_refines inherited_function b topic handler Hwf Hplain)
      as [b' [Hrun [Hview _]]].
    eexists. exists b'. split; [exact Hrun|].
    rewrite <- !view_lookup, Hview.
    now apply EventsMore.unsubscribe_lookup_ne.
Qed.

(** On a plain topic, subscribing a handler the topic does not hold and
    unsubscribing it answers [true] and gives back the channels one started
    from, the store of the handlers untouched. *)
Theorem subscribe_then_unsubscribe (b : bus Handler St) topic h :
  well_formed b ->
  plain topic = true ->
  h ∉ handlers_of b topic ->
  channel b topic <> Some [] ->
  exists b1 b2,
    subscribe topic [h] b = (Ret tt, b1)
    /\ unsubscribe topic (Some h) b1 = (Ret true, b2)
    /\ (forall topic', channel b2 topic' = channel b topic')
    /\ user b2 = user b.
Proof.
  intros Hwf Hplain Hnot Hne.
  destruct (subscribe_refines inherited_function b topic [h] Hwf Hplain)
    as [b1 [Hrun1 [Hview1 [Hwf1 Hu1]]]].
  destruct (unsubscribe_refines inherited_function b1 topic (Some h) Hwf1 Hplain)
    as [b2 [Hrun2 [Hview2 [_ Hu2]]]].
  assert (Hmap : Events.unsubscribe (Events.subscribe (view b) topic [h]) topic (Some h)
                 = (true, view b)).
  { apply EventsMore.subscribe_unsubscribe_map.
    - now rewrite view_lookup, <- handlers_of_channel.
    - now rewrite view_lookup. }
  rewrite Hview1, Hmap in Hrun2, Hview2.
  exists b1, b2. split; [exact Hrun1|]. split; [exact Hrun2|].
  split; [|congruence].
  intros topic'. now rewrite <- !view_lookup, Hview2.
Qed.

End Bus.

Lemma quiet_bus_well_formed : well_formed quiet_bus.
Proof.
  split.
  - intros topic ref Hown. unfold quiet_bus in Hown. simpl in Hown.
    rewrite lookup_empty in Hown. discriminate Hown.
  - intros topic topic' ref Hown. unfold quiet_bus in Hown. simpl in Hown.
    rewrite lookup_empty in Hown. discriminate Hown.
Qed.

Lemma after_subscribe_well_formed hs : well_formed (after_subscribe hs).
Proof.
  destruct (subscribe_channels es5 quiet_bus "saved" hs quiet_bus_well_formed eq_refl)
    as [b' [Hrun [_ [_ [Hwf _]]]]].
  unfold after_subscribe. now rewrite Hrun.
Qed.

Lemma plain_topics_apart_witness :
  (exists b',
      LiveEvents.subscribe es5 "closed" [5%nat] (after_subscribe [7; 3]%nat) = (Ret tt, b')
      /\ channel b' "saved" = channel (after_subscribe [7; 3]%nat) "saved")
  /\ (exists r b',
      LiveEvents.unsubscribe es5 "closed" (Some 7%nat) (after_subscribe [7; 3]%nat)
      = (Ret r, b')
      /\ channel b' "saved" = channel (after_subscribe [7; 3]%nat) "saved").
Proof.
  apply (plain_topics_apart es5 (after_subscribe [7; 3]%nat) "closed" "saved"
           [5%nat] (Some 7%nat)).
  - apply after_subscribe_well_formed.
  - reflexivity.
  - reflexivity.
  - discriminate.
Defined.

Lemma subscribe_then_unsubscribe_witness :
  exists b1 b2,
    LiveEvents.subscribe es5 "saved" [5%nat] (after_subscribe [7; 3]%nat) = (Ret tt, b1)
    /\ LiveEvents.unsubscribe es5 "saved" (Some 5%nat) b1 = (Ret true, b2)
    /\ (forall topic', channel b2 topic' = channel (after_subscribe [7; 3]%nat) topic')
    /\ user b2 = user (after_subscribe [7; 3]%nat).
Proof.
  apply (subscribe_then_unsubscribe es5 (after_subscribe [7; 3]%nat) "saved" 5%nat).
  - apply after_subscribe_well_formed.
  - reflexivity.
  - vm_compute. intros Hin.
    repeat (apply elem_of_cons in Hin as [Hin|Hin]; [discriminate Hin|]).
    inversion Hin.
  - vm_compute. discriminate.
Defined.

End LiveMore.

(* ===================================================================== *)
(** * Further properties of the completion handlers *)
(* ===================================================================== *)

Module XhrMore.
Import Pipeline Xhr XhrFacts.

(** The labels that record a call to the observer. *)
Definition is_observer_label (l : label) : bool :=
  match l with
  | ObserverNext _ | ObserverError _ | ObserverComplete => true
  | _ => false
  end.

(** A stretch of trace along which the observer is not called. *)
Definition untold (t : list label) : Prop :=
  Forall (fun l => is_observer_label l = false) t.

(** A computation that only appends to the trace, and never a call to the
    observer. *)
Definition discreet {U A} (c : M (world U) A) : Prop :=
  forall w o w', c w = (o, w') ->
    exists t, trace w' = trace w ++ t /\ untold t.

(** The guards that [XSSI_PREFIX] matches. *)
Definition xssi_guard : string := ")]}'" +:+ String nl EmptyString.
Definition xssi_guard_comma : string := ")]}'," +:+ String nl EmptyString.

Lemma strip_prefix_spec p : forall s r, strip_prefix p s = Some r -> s = p +:+ r.
Proof.
  induction p as [|a p IH]; intros s r Hs; simpl in *.
  - now inversion Hs.
  - destruct s as [|b s]; [discriminate Hs|].
    destruct (Ascii.eqb_spec a b) as [->|]; [|discriminate Hs].
    now rewrite (IH _ _ Hs).
Qed.

(** The guard is removed once: a guarded text comes out as the text that
    follows the guard, whatever that text is; and what comes out of any
    text is that text, or that text less one guard at its start. *)
Theorem strip_xssi_removes_one_guard (s : string) :
  strip_xssi (xssi_guard +:+ s) = s
  /\ strip_xssi (xssi_guard_comma +:+ s) = s
  /\ (strip_xssi s = s
      \/ s = xssi_guard +:+ strip_xssi s
      \/ s = xssi_guard_comma +:+ strip_xssi s).
Proof.
  split; [|split].
  - unfold strip_xssi, xssi_guard. simpl.
    destruct s as [|c s]; reflexivity.
  - reflexivity.
  - unfold strip_xssi.
    destruct (strip_prefix ")]}'" s) as [rest|] eqn:Hrest; [|now left].
    apply strip_prefix_spec in Hrest.
    destruct (strip_prefix (String "," (String nl EmptyString)) rest)
      as [r|] eqn:Hcomma.
    + right. right. apply strip_prefix_spec in Hcomma.
      rewrite Hrest, Hcomma. reflexivity.
    + destruct (strip_prefix (String nl EmptyString) rest) as [r|] eqn:Hnl;
        [|now left].
      right. left. apply strip_prefix_spec in Hnl.
      rewrite Hrest, Hnl. reflexivity.
Qed.

(** What [normalize] keeps: the status is never 1223; a status other than 0
    and 1223 is left as it is; a status normalised to 204 has a [null] body;
    on any other status a response that is not a string (and is defined)
    is the body as it stands. *)
Theorem normalize_invariants (x : xhr) :
  fst (normalize x) <> 1223
  /\ (xhr_status x <> 0 -> xhr_status x <> 1223 ->
      fst (normalize x) = xhr_status x)
  /\ (fst (normalize x) = 204 -> snd (normalize x) = VNull)
  /\ (fst (normalize x) <> 204 ->
      typeof (xhr_response x) <> "string" ->
      typeof (xhr_response x) <> "undefined" ->
      snd (normalize x) = xhr_response x).
Proof.
  unfold normalize.
  destruct (Z.eqb_spec (xhr_status x) 1223) as [H1223|H1223]; simpl;
    [repeat split; intros; simpl in *; congruence || lia|].
  destruct (Z.eqb_spec (xhr_status x) 204) as [H204|H204]; simpl;
    [rewrite H204; repeat split; intros; simpl in *; congruence || lia|].
  destruct (Z.eqb_spec (xhr_status x) 0) as [H0|H0]; simpl.
  - split; [destruct (truthy _); lia|].
    split; [intros; congruence|].
    split; [destruct (truthy _); intros; lia|].
    intros _ Hstr Hundef. destruct (xhr_response x); simpl in *; congruence.
  - split; [assumption|].
    split; [reflexivity|].
    split; [intros; congruence|].
    intros _ Hstr Hundef. destruct (xhr_response x); simpl in *; congruence.
Qed.

Lemma normalize_invariants_witness :
  fst (normalize (XHR 201 (VObj [("id", VNum 4)]) "" "" "" None (fun _ => VNull)))
  = 201
  /\ snd (normalize (XHR 201 (VObj [("id", VNum 4)]) "" "" "" None (fun _ => VNull)))
     = VObj [("id", VNum 4)].
Proof.
  pose proof (normalize_invariants
                (XHR 201 (VObj [("id", VNum 4)]) "" "" "" None (fun _ => VNull)))
    as [_ [Hstatus [_ Hbody]]].
  split.
  - apply Hstatus; discriminate.
  - apply Hbody; discriminate.
Defined.

Section Discretion.

Context {U : Type}.
Variable code : nat -> callback U.
Variable plugins : list (plugin U).

Lemma untold_app (t1 t2 : list label) : untold t1 -> untold t2 -> untold (t1 ++ t2).
Proof. apply Forall_app_2. Qed.

Lemma discreet_same {A} (c : M (world U) A) :
  (forall w o w', c w = (o, w') -> trace w' = trace w) -> discreet c.
Proof.
  intros Hc w o w' Hrun. exists []. rewrite app_nil_r.
  split; [now apply (Hc w o w') | constructor].
Qed.

Lemma discreet_ret {A} (a : A) : discreet (ret a : M (world U) A).
Proof. apply discreet_same. intros w o w' H0. now inversion H0. Qed.

Lemma discreet_throw {A} (e : value) : discreet (throw e : M (world U) A).
Proof. apply discreet_same. intros w o w' H0. now inversion H0. Qed.

Lemma discreet_lift {A} (c : M U A) : discreet (lift c).
Proof.
  apply discreet_same. intros w o w' H0. unfold lift in H0.
  destruct (c (ustate w)) as [o1 u1]. now inversion H0.
Qed.

Lemma discreet_log (l : label) :
  is_observer_label l = false -> discreet (log (U := U) l).
Proof.
  intros Hl w o w' H0. exists [l]. inversion H0; subst.
  split; [reflexivity | now repeat constructor].
Qed.

Lemma discreet_bind {A B} (c : M (world U) A) (k : A -> M (world U) B) :
  discreet c -> (forall a, discreet (k a)) -> discreet (bind c k).
Proof.
  intros Hc Hk w o w' Hrun. unfold bind in Hrun.
  destruct (c w) as [[a|e] w1] eqn:Hcw.
  - destruct (Hc _ _ _ Hcw) as [t1 [Ht1 Hp1]].
    destruct (Hk a _ _ _ Hrun) as [t2 [Ht2 Hp2]].
    exists (t1 ++ t2). rewrite Ht2, Ht1, <- List.app_assoc.
    split; [reflexivity | now apply untold_app].
  - inversion Hrun; subst. now apply (Hc _ _ _ Hcw).
Qed.

Lemma discreet_forEach (fn : plugin U -> M (world U) unit) ps :
  (forall p, discreet (fn p)) -> discreet (forEach fn ps).
Proof.
  intros Hfn. induction ps as [|p ps IH]; simpl.
  - apply discreet_ret.
  - apply discreet_bind; [apply Hfn | intros _; exact IH].
Qed.

Lemma discreet_apply_handler h args : discreet (apply_handler code plugins h args).
Proof.
  destruct h as [id|method]; simpl.
  - apply discreet_bind; [now apply discreet_log|]. intros _. apply discreet_lift.
  - unfold runEvent_handler. apply discreet_bind; [|intros _; apply discreet_ret].
    apply discreet_forEach. intros p. unfold runEvent_body.
    destruct (phooks p method) as [f|]; [|apply discreet_ret].
    apply discreet_bind; [now apply discreet_log|]. intros _.
    apply discreet_bind; [apply discreet_lift|]. intros r.
    destruct (is_false r); [|apply discreet_ret].
    apply discreet_same. intros w o w' H0. now inversion H0.
Qed.

(** Firing an event does not reach the observer. *)
Lemma discreet_fire (cs : gmap string (list handler)) T args :
  discreet (fire code plugins cs T args).
Proof.
  unfold fire. apply discreet_bind; [now apply discreet_log|]. intros _.
  apply discreet_bind; [|intros _; apply discreet_ret].
  unfold Events.publish. destruct (cs !! topic_name T) as [t|];
    [|apply discreet_ret].
  apply discreet_bind; [|intros rs; apply discreet_ret].
  generalize (@nil value). induction t as [|h t IH]; intros acc; simpl.
  - apply discreet_ret.
  - apply discreet_bind; [apply discreet_apply_handler|]. intros r. apply IH.
Qed.

End Discretion.

Section Connection.

Context {U : Type}.
Variable code : nat -> callback U.
Variable plugins : list (plugin U).
Variable isSuccess : Z -> bool.
Variable fromResponseHeaderString : string -> value.
Variable baseResponseOptions : option (value -> value).
Variable new_Response : value -> value.

Local Abbreviation fire := (Pipeline.fire code plugins).
Local Abbreviation complete :=
  (Xhr.complete code plugins isSuccess fromResponseHeaderString
                baseResponseOptions new_Response).
Local Abbreviation response_of :=
  (Xhr.response_of isSuccess fromResponseHeaderString baseResponseOptions
                   new_Response).

Lemma observer_error_told (o : observer U) v w :
  exists r w0, try_ (responseObserver_error o v) w = (Ret r, w0)
               /\ trace w0 = trace w ++ [ObserverError v].
Proof.
  unfold try_. destruct (responseObserver_error o v w) as [out w0] eqn:Hrun.
  exists out, w0. split; [reflexivity|].
  now apply (observer_error_trace _ _ _ _ _ Hrun).
Qed.

(** In the error branch the observer is told of the error once, before
    anything else happens, and is not called again, whichever of the
    callback, the handlers and the hooks raises. *)
Theorem error_branch_tells_observer_once_first
        (cs : gmap string (list handler)) (o : observer U) (req_url : value)
        (c : completion) (w w' : world U) (out : outcome unit) :
  succeeded isSuccess c = false ->
  complete cs o req_url c w = (out, w') ->
  exists t,
    trace w' = trace w ++ ObserverError (response_of req_url c) :: t
    /\ untold t.
Proof.
  intros Hfail Hrun.
  rewrite (complete_error_branch _ _ _ _ _ _ _ _ _ _ Hfail) in Hrun.
  unfold error_branch in Hrun.
  destruct (observer_error_told o (response_of req_url c) w)
    as [r [w0 [Htry Htr]]].
  rewrite (bind_ret _ _ _ _ _ Htry) in Hrun.
  assert (Hrest : forall exception : value,
             discreet (fire cs POST_REQUEST_ERROR [response_of req_url c] ;;;
                       fire cs POST_REQUEST [response_of req_url c] ;;;
                       if truthy exception then throw exception else ret tt)).
  { intros exception.
    apply discreet_bind; [apply discreet_fire|]. intros _.
    apply discreet_bind; [apply discreet_fire|]. intros _.
    destruct (truthy exception); [apply discreet_throw | apply discreet_ret]. }
  destruct (Hrest _ _ _ _ Hrun) as [t [Ht Hun]].
  exists t. rewrite Ht, Htr, <- List.app_assoc. now split.
Qed.

(** In the error branch, once the two events have been dispatched without
    a raise, the handler raises what the error callback raised if that is a
    truthy value, and returns otherwise: when the callback returned, and
    when it raised a falsy value. *)
Theorem error_branch_outcome
        (cs : gmap string (list handler)) (o : observer U) (req_url : value)
        (c : completion) (w w0 w1 w2 : world U) (told : outcome unit) :
  succeeded isSuccess c = false ->
  responseObserver_error o (response_of req_url c) w = (told, w0) ->
  fire cs POST_REQUEST_ERROR [response_of req_url c] w0 = (Ret tt, w1) ->
  fire cs POST_REQUEST [response_of req_url c] w1 = (Ret tt, w2) ->
  complete cs o req_url c w
  = (match told with
     | Throw e => if truthy e then Throw e else Ret tt
     | Ret _ => Ret tt
     end, w2).
Proof.
  intros Hfail Hobs Hfire1 Hfire2.
  rewrite (complete_error_branch _ _ _ _ _ _ _ _ _ _ Hfail). unfold error_branch.
  erewrite bind_ret by (unfold try_; rewrite Hobs; reflexivity).
  rewrite (bind_ret _ _ _ _ _ Hfire1), (bind_ret _ _ _ _ _ Hfire2).
  destruct told as [[]|e]; simpl; [reflexivity|].
  destruct (truthy e); reflexivity.
Qed.

(** On a success status the error callback is never called; the observer
    is called only after both events have been dispatched, first with the
    response and then for completion, and a handler that returns has made
    both calls. *)
Theorem success_tells_observer_last
        (cs : gmap string (list handler)) (o : observer U) (req_url : value)
        (c : completion) (w w' : world U) (out : outcome unit) :
  succeeded isSuccess c = true ->
  complete cs o req_url c w = (out, w') ->
  exists t1 t2,
    trace w' = trace w ++ t1 ++ t2
    /\ untold t1
    /\ (t2 = []
        \/ t2 = [ObserverNext (response_of req_url c)]
        \/ t2 = [ObserverNext (response_of req_url c); ObserverComplete])
    /\ (t2 <> [] ->
        published t1 = [topic_name POST_REQUEST_SUCCESS; topic_name POST_REQUEST])
    /\ (out = Ret tt ->
        t2 = [ObserverNext (response_of req_url c); ObserverComplete]).
Proof.
  intros Hok Hrun. destruct c as [x|x err]; [|discriminate Hok].
  unfold Xhr.succeeded in Hok. unfold Xhr.complete, Xhr.onLoad in Hrun.
  rewrite Hok in Hrun. unfold Xhr.response_of.
  set (resp := load_response isSuccess fromResponseHeaderString
                 baseResponseOptions new_Response req_url x) in *.
  unfold bind at 1 in Hrun.
  destruct (fire cs POST_REQUEST_SUCCESS [resp] w) as [[[]|e] w1] eqn:Hf1.
  2:{ inversion Hrun; subst.
      destruct (discreet_fire _ _ _ _ _ _ _ _ Hf1) as [t [Ht Hun]].
      exists t, []. rewrite app_nil_r.
      split; [exact Ht|]. split; [exact Hun|]. split; [now left|].
      split; [congruence | discriminate]. }
  unfold bind at 1 in Hrun.
  destruct (discreet_fire _ _ _ _ _ _ _ _ Hf1) as [t [Ht Hun]].
  destruct (fire cs POST_REQUEST [resp] w1) as [[[]|e] w2] eqn:Hf2.
  2:{ inversion Hrun; subst.
      destruct (discreet_fire _ _ _ _ _ _ _ _ Hf2) as [t' [Ht' Hun']].
      exists (t ++ t'), []. rewrite app_nil_r, Ht', Ht, <- List.app_assoc.
      split; [reflexivity|]. split; [now apply untold_app|]. split; [now left|].
      split; [congruence | discriminate]. }
  destruct (discreet_fire _ _ _ _ _ _ _ _ Hf2) as [t' [Ht' Hun']].
  destruct (fire_publishes_once _ _ _ _ _ _ _ _ Hf1) as [p [Hp Hpp]].
  destruct (fire_publishes_once _ _ _ _ _ _ _ _ Hf2) as [p' [Hp' Hpp']].
  assert (Hpub : published (t ++ t')
                 = [topic_name POST_REQUEST_SUCCESS; topic_name POST_REQUEST]).
  { rewrite Ht in Hp. apply app_inv_head in Hp.
    rewrite Ht' in Hp'. apply app_inv_head in Hp'. subst t t'.
    rewrite published_app. simpl.
    change (omap _ p) with (published p). change (omap _ p') with (published p').
    now rewrite Hpp, Hpp'. }
  assert (Hun2 : untold (t ++ t')) by now apply untold_app.
  assert (Htr : trace w2 = trace w ++ t ++ t')
    by now rewrite Ht', Ht, <- List.app_assoc.
  clear Hf1 Hf2 Ht Ht' Hp Hp' Hpp Hpp' Hun Hun'.
  unfold responseObserver_next, responseObserver_complete in Hrun.
  unfold bind, log, modify, lift, ret in Hrun. simpl in Hrun.
  destruct (obs_next o [resp] (ustate w2)) as [[r|e] u3].
  2:{ inversion Hrun; subst. simpl.
      exists (t ++ t'), [ObserverNext resp]. rewrite Htr, <- !List.app_assoc.
      split; [reflexivity|]. split; [exact Hun2|]. split; [now right; left|].
      split; [now intros _ | discriminate]. }
  simpl in Hrun.
  destruct (obs_complete o [] u3) as [[r'|e] u4]; inversion Hrun; subst; simpl;
    exists (t ++ t'), [ObserverNext resp; ObserverComplete];
    rewrite Htr, <- !List.app_assoc;
    (split; [reflexivity|]; split; [exact Hun2|]; split; [now right; right|];
     split; [now intros _ | reflexivity]).
Qed.

End Connection.

Lemma error_branch_tells_observer_once_first_witness :
  exists t,
    trace (snd (run [hooked "auth" postRequestError (fun _ => throw (js_error "denied"))]
                    (Http_constructor ∅) (raising_observer (js_error "no handler"))
                    (ErrorEvent (xhr_with 0 "") (VStr "offline"))))
    = [] ++ ObserverError
              (Xhr.response_of is2xx (fun _ => VObj []) None (fun opts => opts)
                 (VStr "/users") (ErrorEvent (xhr_with 0 "") (VStr "offline")))
            :: t
    /\ untold t.
Proof.
  eapply (error_branch_tells_observer_once_first
            (fun _ _ => ret VUndefined)
            [hooked "auth" postRequestError (fun _ => throw (js_error "denied"))]
            is2xx (fun _ => VObj []) None (fun opts => opts)
            (Http_constructor ∅) (raising_observer (js_error "no handler"))
            (VStr "/users") (ErrorEvent (xhr_with 0 "") (VStr "offline"))
            (World [] false tt)).
  - reflexivity.
  - apply surjective_pairing.
Defined.

Lemma error_branch_outcome_witness :
  exists w2,
    run [audit] (Http_constructor ∅) (raising_observer (VNum 0))
        (LoadEvent (xhr_with 500 "down"))
    = (Ret tt, w2).
Proof.
  eexists.
  eapply (error_branch_outcome
            (fun _ _ => ret VUndefined) [audit] is2xx (fun _ => VObj [])
            None (fun opts => opts) (Http_constructor ∅)
            (raising_observer (VNum 0))
            (VStr "/users") (LoadEvent (xhr_with 500 "down"))
            (World [] false tt) _ _ _ (Throw (VNum 0))).
  - reflexivity.
  - reflexivity.
  - reflexivity.
  - reflexivity.
Defined.

Lemma success_tells_observer_last_witness :
  exists t1 t2,
    trace (snd (run [audit] (Http_constructor ∅) quiet_observer
                    (LoadEvent (xhr_with 200 "[]"))))
    = [] ++ t1 ++ t2
    /\ untold t1
    /\ (t2 = []
        \/ t2 = [ObserverNext
                   (Xhr.response_of is2xx (fun _ => VObj []) None (fun opts => opts)
                      (VStr "/users") (LoadEvent (xhr_with 200 "[]")))]
        \/ t2 = [ObserverNext
                   (Xhr.response_of is2xx (fun _ => VObj []) None (fun opts => opts)
                      (VStr "/users") (LoadEvent (xhr_with 200 "[]")));
                 ObserverComplete])
    /\ (t2 <> [] -> published t1 = ["POST_REQUEST_SUCCESS"; "POST_REQUEST"])
    /\ (fst (run [audit] (Http_constructor ∅) quiet_observer
                 (LoadEvent (xhr_with 200 "[]"))) = Ret tt ->
        t2 = [ObserverNext
                (Xhr.response_of is2xx (fun _ => VObj []) None (fun opts => opts)
                   (VStr "/users") (LoadEvent (xhr_with 200 "[]")));
              ObserverComplete]).
Proof.
  eapply (success_tells_observer_last
            (fun _ _ => ret VUndefined) [audit] is2xx (fun _ => VObj [])
            None (fun opts => opts) (Http_constructor ∅) quiet_observer
            (VStr "/users") (LoadEvent (xhr_with 200 "[]"))
            (World [] false tt)).
  - reflexivity.
  - apply surjective_pairing.
Defined.

End XhrMore.

(* ===================================================================== *)
(** * The verb helpers of [Http] and more on [Http.request] *)
(* ===================================================================== *)

Module Verbs.
Import Request.

(** [options = options || {}; options.method = verb]. The module is strict
    code: the assignment raises a [TypeError] on a primitive. An array or a
    function object would take the property; having no named properties in
    this model, they are left as they are. *)
Definition with_method {S} (verb : string) (options : value) : M S value :=
  let options := if truthy options then options else VObj [] in
  match options with
  | VObj fs => ret (VObj (set_assoc "method" (VStr verb) fs))
  | VArr _ | VFun _ => ret options
  | _ => throw (type_error "Cannot create property 'method'")
  end.

Section Http.

Context {S Obs : Type}.
Variable requestFactory : option (factory S).
Variable http_request : value -> value -> M S Obs.
Variable map : Obs -> (value -> M S value) -> Obs.
Variable instanceof_Mapper : value -> bool.
Variable mapper_transform : value -> value -> M S value.

Local Abbreviation request :=
  (Request.request requestFactory http_request map instanceof_Mapper
                   mapper_transform).

(** The common shape of [get], [post], [put], [delete], [patch], [head]. *)
Definition verb_request (verb : string)
           (url params options responseOptions : value) : M S Obs :=
  let! options := with_method verb options in
  request url params options responseOptions.

Definition Http_get := verb_request "GET".
Definition Http_post := verb_request "POST".
Definition Http_put := verb_request "PUT".
Definition Http_delete := verb_request "DELETE".
Definition Http_patch := verb_request "PATCH".
Definition Http_head := verb_request "HEAD".

(** Whether [request] hands the url to the request factory. *)
Definition resolved (url : value) : bool :=
  match url, requestFactory with
  | VStr u, Some f => metadata_has f u
  | _, _ => false
  end.

End Http.

(** One of the keys by which [request] tells response options. *)
Definition has_response_key (fs : list (string * value)) : bool :=
  bool_decide (is_Some (assoc "mapper" fs))
  || bool_decide (is_Some (assoc "promise" fs))
  || bool_decide (is_Some (assoc "timeout" fs)).

(** A truthy value that is not an object. *)
Definition truthy_primitive (v : value) : bool :=
  truthy v && match v with
              | VObj _ | VArr _ | VFun _ => false
              | _ => true
              end.

End Verbs.

Module VerbsFacts.
Import Request Verbs.

Lemma assoc_set_assoc_ne k k' x fs :
  k <> k' -> assoc k (set_assoc k' x fs) = assoc k fs.
Proof.
  intros Hne. induction fs as [|[k0 v] fs IH]; simpl.
  - destruct (String.eqb_spec k k'); [congruence | reflexivity].
  - destruct (String.eqb_spec k' k0) as [->|Hk0]; simpl.
    + destruct (String.eqb_spec k k0); [congruence | reflexivity].
    + destruct (String.eqb_spec k k0); [reflexivity | exact IH].
Qed.

Lemma assoc_set_assoc_eq k x fs : assoc k (set_assoc k x fs) = Some x.
Proof.
  induction fs as [|[k0 v] fs IH]; simpl.
  - now rewrite String.eqb_refl.
  - destruct (String.eqb_spec k k0) as [->|Hk0]; simpl.
    + now rewrite String.eqb_refl.
    + destruct (String.eqb_spec k k0); [congruence | exact IH].
Qed.

Lemma has_response_key_method verb fs :
  has_response_key (set_assoc "method" verb fs) = has_response_key fs.
Proof.
  unfold has_response_key. now rewrite !assoc_set_assoc_ne by discriminate.
Qed.

Lemma checkForResponseOptions_object {S} fs (s : S) :
  checkForResponseOptions (VObj fs) s = (Ret (has_response_key fs), s).
Proof.
  unfold checkForResponseOptions, has_response_key. simpl.
  unfold bind, ret. simpl.
  destruct (bool_decide (is_Some (assoc "mapper" fs))); [reflexivity|].
  destruct (bool_decide (is_Some (assoc "promise" fs))); [reflexivity|].
  destruct (bool_decide (is_Some (assoc "timeout" fs))); reflexivity.
Qed.

Section Http.

Context {S Obs : Type}.
Variable requestFactory : option (factory S).
Variable http_request : value -> value -> M S Obs.
Variable map : Obs -> (value -> M S value) -> Obs.
Variable instanceof_Mapper : value -> bool.
Variable mapper_transform : value -> value -> M S value.

Local Abbreviation request :=
  (Request.request requestFactory http_request map instanceof_Mapper
                   mapper_transform).
Local Abbreviation verb_request :=
  (Verbs.verb_request requestFactory http_request map instanceof_Mapper
                      mapper_transform).

Lemma request_after_prepare url params options ro s :
  request url params options ro s
  = match prepare requestFactory url params options ro s with
    | (Ret (url', options', _), s1) => http_request url' options' s1
    | (Throw e, s1) => (Throw e, s1)
    end.
Proof.
  unfold Request.request, bind.
  destruct (prepare requestFactory url params options ro s)
    as [[[[url' options'] ro']|e] s1]; [|reflexivity].
  unfold ret. destruct (http_request url' options' s1) as [[o|e] s2]; reflexivity.
Qed.

(** The fourth argument of [request] has no bearing on what it does or
    returns: not a mapper, not a promise flag, not a timeout. *)
Theorem request_ignores_response_options (url params options ro1 ro2 : value)
        (s : S) :
  request url params options ro1 s = request url params options ro2 s.
Proof.
  rewrite !request_after_prepare. unfold prepare, bind.
  destruct ((if truthy options then checkForResponseOptions options
             else ret false) s) as [[swap|e] s1]; [|reflexivity].
  destruct swap.
  - reflexivity.
  - destruct url; try reflexivity.
    destruct requestFactory as [f|]; [|reflexivity].
    destruct (metadata_has f s0); [|reflexivity].
    unfold ret. destruct (create f s0 params options s1) as [[u|e] s2]; reflexivity.
Qed.

(** An options object with a [mapper], [promise] or [timeout] key is taken
    for response options: the request is made as one without options. *)
Theorem options_taken_for_response_options
        (url params ro : value) (fs : list (string * value)) (s : S) :
  has_response_key fs = true ->
  request url params (VObj fs) ro s = request url params VNull VUndefined s.
Proof.
  intros Hkey. rewrite !request_after_prepare. unfold prepare. simpl.
  rewrite (bind_ret _ _ _ _ _ (checkForResponseOptions_object fs s)), Hkey.
  unfold bind, ret. simpl.
  destruct url; try reflexivity.
  destruct requestFactory as [f|]; [|reflexivity].
  destruct (metadata_has f s0); [|reflexivity].
  destruct (create f s0 params VNull s) as [[u|e] s2]; reflexivity.
Qed.

(** Options that are a truthy primitive make [request] raise a [TypeError]
    on the spot: neither the factory nor the transport is reached. *)
Theorem request_refuses_primitive_options (url params options ro : value) (s : S) :
  truthy_primitive options = true ->
  request url params options ro s
  = (Throw (type_error "Cannot use 'in' operator"), s).
Proof.
  intros Hprim. rewrite request_after_prepare. unfold prepare.
  unfold truthy_primitive in Hprim. apply andb_true_iff in Hprim as [Ht Hp].
  rewrite Ht. destruct options; try discriminate; reflexivity.
Qed.

(** A verb helper called with no options, or with an options object that
    has none of the three keys, for a url the factory does not resolve: the
    transport gets the url and the options with [method] set to the verb,
    whatever [method] the caller had put there. *)
Theorem verb_reaches_transport
        (verb : string) (url params options ro : value)
        (fs : list (string * value)) (s : S) :
  (truthy options = false /\ fs = []) \/ options = VObj fs ->
  has_response_key fs = false ->
  resolved requestFactory url = false ->
  verb_request verb url params options ro s
  = http_request url (VObj (set_assoc "method" (VStr verb) fs)) s
  /\ get_field "method" (VObj (set_assoc "method" (VStr verb) fs)) = VStr verb.
Proof.
  intros Hopt Hkey Hres. split; [|simpl; now rewrite assoc_set_assoc_eq].
  assert (Hwith : with_method verb options s
                  = (Ret (VObj (set_assoc "method" (VStr verb) fs)), s)).
  { unfold with_method.
    destruct Hopt as [[Hfalsy ->]| ->]; [now rewrite Hfalsy | reflexivity]. }
  unfold Verbs.verb_request. rewrite (bind_ret _ _ _ _ _ Hwith).
  rewrite request_after_prepare. unfold prepare.
  change (truthy (VObj ?x)) with true. cbv iota.
  rewrite (bind_ret _ _ _ _ _ (checkForResponseOptions_object _ s)).
  rewrite has_response_key_method, Hkey. unfold resolved in Hres.
  destruct url; try reflexivity.
  destruct requestFactory as [f|]; [|reflexivity].
  rewrite Hres. reflexivity.
Qed.

(** A verb helper called with an options object that has one of the three
    keys: the verb does not reach the transport; the call is the plain
    request without options. *)
Theorem verb_lost_with_response_options
        (verb : string) (url params ro : value) (fs : list (string * value))
        (s : S) :
  has_response_key fs = true ->
  verb_request verb url params (VObj fs) ro s
  = request url params VNull VUndefined s.
Proof.
  intros Hkey. unfold Verbs.verb_request.
  assert (Hwith : with_method verb (VObj fs) s
                  = (Ret (VObj (set_assoc "method" (VStr verb) fs)), s))
    by reflexivity.
  rewrite (bind_ret _ _ _ _ _ Hwith).
  rewrite !request_after_prepare. unfold prepare. simpl.
  rewrite (bind_ret _ _ _ _ _
             (checkForResponseOptions_object (set_assoc "method" (VStr verb) fs) s)).
  rewrite has_response_key_method, Hkey.
  unfold bind, ret. simpl.
  destruct url; try reflexivity.
  destruct requestFactory as [f|]; [|reflexivity].
  destruct (metadata_has f s0); [|reflexivity].
  destruct (create f s0 params VNull s) as [[u|e] s2]; reflexivity.
Qed.

End Http.

(** A transport that answers with the options it was given. *)
Definition echo_options (url options : value) : M unit (list value) :=
  ret [options].

Definition no_map (o : list value) (f : value -> M unit value) : list value := o.

Lemma options_taken_for_response_options_witness :
  request None echo_options no_map (fun _ => false) (fun _ v => ret v)
          (VStr "/users") VUndefined (VObj [("timeout", VNum 30)]) VUndefined tt
  = (Ret [VNull], tt).
Proof.
  apply (options_taken_for_response_options None echo_options no_map
           (fun _ => false) (fun _ v => ret v) (VStr "/users") VUndefined
           VUndefined [("timeout", VNum 30)] tt).
  reflexivity.
Defined.

Lemma request_refuses_primitive_options_witness :
  request None echo_options no_map (fun _ => false) (fun _ v => ret v)
          (VStr "/users") VUndefined (VStr "json") VUndefined tt
  = (Throw (type_error "Cannot use 'in' operator"), tt).
Proof.
  apply (request_refuses_primitive_options None echo_options no_map
           (fun _ => false) (fun _ v => ret v)).
  reflexivity.
Defined.

Lemma verb_reaches_transport_witness :
  Http_post None echo_options no_map (fun _ => false) (fun _ v => ret v)
            (VStr "/users") VUndefined
            (VObj [("method", VStr "GET"); ("body", VStr "{}")]) VUndefined tt
  = (Ret [VObj [("method", VStr "POST"); ("body", VStr "{}")]], tt)
  /\ get_field "method" (VObj [("method", VStr "POST"); ("body", VStr "{}")])
     = VStr "POST".
Proof.
  apply (verb_reaches_transport None echo_options no_map
           (fun _ => false) (fun _ v => ret v) "POST" (VStr "/users") VUndefined
           (VObj [("method", VStr "GET"); ("body", VStr "{}")]) VUndefined
           [("method", VStr "GET"); ("body", VStr "{}")] tt).
  - now right.
  - reflexivity.
  - reflexivity.
Defined.

Lemma verb_lost_with_response_options_witness :
  Http_post None echo_options no_map (fun _ => false) (fun _ v => ret v)
            (VStr "/users") VUndefined (VObj [("mapper", VFun 4)]) VUndefined tt
  = (Ret [VNull], tt).
Proof.
  apply (verb_lost_with_response_options None echo_options no_map
           (fun _ => false) (fun _ v => ret v) "POST" (VStr "/users") VUndefined
           VUndefined [("mapper", VFun 4)] tt).
  reflexivity.
Defined.

End VerbsFacts.

(* ===================================================================== *)
(** * Opening a connection: the constructor of [XHRConnection] *)
(* ===================================================================== *)

Module Connect.
Import Pipeline.

(** [RequestMethod] and [ResponseContentType] of [@angular/http]. *)
Inductive RequestMethod : Type :=
  | Get | Post | Put | Delete | Options | Head | Patch.

Inductive ResponseContentType : Type :=
  | Text | Json | ArrayBuffer | Blob.

(** [RequestMethod[req.method].toUpperCase()] *)
Definition method_name (m : RequestMethod) : string :=
  match m with
  | Get => "GET"
  | Post => "POST"
  | Put => "PUT"
  | Delete => "DELETE"
  | Options => "OPTIONS"
  | Head => "HEAD"
  | Patch => "PATCH"
  end.

(** What [req.responseType] holds when it is neither [undefined] nor
    [null]: a member of the enumeration, or some other number. *)
Inductive response_type : Type :=
  | Known (t : ResponseContentType)
  | Unknown (n : Z).

(** What is done to the [XMLHttpRequest], in order. *)
Inductive xhr_op : Type :=
  | Build
  | Open (method : string) (url : value)
  | SetWithCredentials (flag : value)
  | SetRequestHeader (name content : string)
  | SetResponseType (type : string)
  | AddEventListener (event : string)
  | RemoveEventListener (event : string)
  | Send (body : value)
  | Abort.

(** The part of [Headers] of [@angular/http] that the constructor uses;
    [Headers_forEach] lists the (values, name) pairs in iteration order. *)
Class HeadersOps (H : Type) : Type := {
  Headers_new : H;
  Headers_has : H -> string -> bool;
  Headers_get : H -> string -> value;
  Headers_append : H -> string -> string -> H;
  Headers_forEach : H -> list (list string * string)
}.

(** The request as the constructor reads it: [rq_self] is the object the
    handlers of PRE_REQUEST receive, [rq_blob_type] is [req.blob().type]
    and [rq_body] is [req.getBody()]. *)
Record request (H : Type) : Type := Req {
  rq_self : value;
  rq_method : RequestMethod;
  rq_url : value;
  rq_withCredentials : value;
  rq_headers : option H;
  rq_contentType : Z;
  rq_responseType : option response_type;
  rq_blob_type : string;
  rq_body : value
}.
Arguments rq_self {H}.
Arguments rq_method {H}.
Arguments rq_url {H}.
Arguments rq_withCredentials {H}.
Arguments rq_headers {H}.
Arguments rq_contentType {H}.
Arguments rq_responseType {H}.
Arguments rq_blob_type {H}.
Arguments rq_body {H}.

(** [v !== undefined && v !== null] fails. *)
Definition nullish (v : value) : bool :=
  match v with
  | VUndefined | VNull => true
  | _ => false
  end.

(** [values.join(',')] *)
Definition join_values (values : list string) : string :=
  String.concat "," values.

Section Connection.

Context {U H : Type} `{HeadersOps H}.
Variable code : nat -> callback U.
Variable plugins : list (plugin U).

(** Whether the [XMLHttpRequest] built has a [responseType] property. *)
Variable xhr_has_responseType : bool.

(** The store: that of the pipeline, and the operations on the xhr. *)
Record net : Type := Net {
  pipeline : world U;
  wire : list xhr_op
}.

Definition in_pipeline {A} (c : M (world U) A) : M net A :=
  fun n => let '(o, w) := c (pipeline n) in (o, Net w (wire n)).

Definition xhr_do (op : xhr_op) : M net unit :=
  modify (fun n => Net (pipeline n) (wire n ++ [op])).

(** [setDetectedContentType(req, _xhr)] *)
Definition setDetectedContentType (req : request H) : M net unit :=
  let custom := match rq_headers req with
                | Some h => negb (nullish (Headers_get h "Content-Type"))
                | None => false
                end in
  if custom then ret tt
  else if Z.eqb (rq_contentType req) 1 then
    xhr_do (SetRequestHeader "content-type" "application/json")
  else if Z.eqb (rq_contentType req) 2 then
    xhr_do (SetRequestHeader "content-type"
                             "application/x-www-form-urlencoded;charset=UTF-8")
  else if Z.eqb (rq_contentType req) 4 then
    xhr_do (SetRequestHeader "content-type" "text/plain")
  else if Z.eqb (rq_contentType req) 5 then
    if String.eqb (rq_blob_type req) "" then ret tt
    else xhr_do (SetRequestHeader "content-type" (rq_blob_type req))
  else ret tt.

(** The headers sent: those of the request, or fresh ones, with the default
    [Accept] when they have none. *)
Definition headers_to_send (req : request H) : H :=
  let headers := match rq_headers req with
                 | Some h => h
                 | None => Headers_new
                 end in
  if Headers_has headers "Accept" then headers
  else Headers_append headers "Accept" "application/json, text/plain, */*".

(** [req.headers.forEach((values, name) => _xhr.setRequestHeader(...))] *)
Fixpoint set_headers (entries : list (list string * string)) : M net unit :=
  match entries with
  | [] => ret tt
  | (values, name) :: rest =>
      xhr_do (SetRequestHeader name (join_values values)) ;;;
      set_headers rest
  end.

(** The [switch] on [req.responseType]. *)
Definition select_buffer (req : request H) : M net unit :=
  match rq_responseType req with
  | Some t =>
      if xhr_has_responseType then
        match t with
        | Known ArrayBuffer => xhr_do (SetResponseType "arraybuffer")
        | Known Json => xhr_do (SetResponseType "json")
        | Known Text => xhr_do (SetResponseType "text")
        | Known Blob => xhr_do (SetResponseType "blob")
        | Unknown _ =>
            throw (js_error "The selected responseType is not supported")
        end
      else ret tt
  | None => ret tt
  end.

(** The function given to [new Observable]: what subscribing to the
    response does. It returns the teardown below. *)
Definition subscribe_response (cs : gmap string (list handler))
           (req : request H) (responseObserver : value) : M net unit :=
  in_pipeline (fire code plugins cs PRE_REQUEST [rq_self req; responseObserver]) ;;;
  xhr_do Build ;;;
  xhr_do (Open (method_name (rq_method req)) (rq_url req)) ;;;
  (if nullish (rq_withCredentials req) then ret tt
   else xhr_do (SetWithCredentials (rq_withCredentials req))) ;;;
  setDetectedContentType req ;;;
  set_headers (Headers_forEach (headers_to_send req)) ;;;
  select_buffer req ;;;
  xhr_do (AddEventListener "load") ;;;
  xhr_do (AddEventListener "error") ;;;
  xhr_do (Send (rq_body req)).

(** The teardown: what unsubscribing does. *)
Definition teardown : M net unit :=
  xhr_do (RemoveEventListener "load") ;;;
  xhr_do (RemoveEventListener "error") ;;;
  xhr_do Abort.

End Connection.

Arguments net : clear implicits.

(** The operations that only set the request up. *)
Definition is_setup (op : xhr_op) : bool :=
  match op with
  | SetWithCredentials _ | SetRequestHeader _ _ | SetResponseType _ => true
  | _ => false
  end.

Definition setup_only (ops : list xhr_op) : Prop :=
  Forall (fun op => is_setup op = true) ops.

(** Whether the [switch] of the constructor has a case for the type. *)
Definition supported (xhr_has_responseType : bool) (t : option response_type)
  : bool :=
  match t with
  | Some (Unknown _) => negb xhr_has_responseType
  | _ => true
  end.

End Connect.

Module ConnectFacts.
Import Pipeline Connect.

Section Connection.

Context {U H : Type} `{HeadersOps H}.
Variable code : nat -> callback U.
Variable plugins : list (plugin U).
Variable xhr_has_responseType : bool.

Local Abbreviation subscribe_response :=
  (Connect.subscribe_response code plugins xhr_has_responseType).

(** A step that returns and only sets the request up. *)
Definition sets_up (c : M (net U) unit) : Prop :=
  forall n, exists ops,
    c n = (Ret tt, Net (pipeline n) (wire n ++ ops)) /\ setup_only ops.

Lemma sets_up_ret : sets_up (ret tt).
Proof.
  intros [w ops0]. exists []. simpl. rewrite app_nil_r. split; [reflexivity | constructor].
Qed.

Lemma sets_up_do op : is_setup op = true -> sets_up (xhr_do op).
Proof.
  intros Hop n. exists [op]. split; [reflexivity|]. now repeat constructor.
Qed.

Lemma sets_up_then (c k : M (net U) unit) :
  sets_up c -> sets_up k -> sets_up (c ;;; k).
Proof.
  intros Hc Hk n. destruct (Hc n) as [ops1 [Hrun1 Hops1]].
  destruct (Hk (Net (pipeline n) (wire n ++ ops1))) as [ops2 [Hrun2 Hops2]].
  exists (ops1 ++ ops2). rewrite (bind_ret _ _ _ _ _ Hrun1), Hrun2. simpl.
  rewrite <- List.app_assoc. split; [reflexivity | now apply Forall_app_2].
Qed.

Lemma sets_up_detection (req : request H) : sets_up (setDetectedContentType req).
Proof.
  unfold setDetectedContentType.
  repeat match goal with
         | |- sets_up (if ?b then _ else _) => destruct b
         | |- sets_up (ret tt) => apply sets_up_ret
         | |- sets_up (xhr_do _) => now apply sets_up_do
         end.
Qed.

Lemma sets_up_headers entries : sets_up (set_headers entries).
Proof.
  induction entries as [|[values name] rest IH]; simpl.
  - apply sets_up_ret.
  - apply sets_up_then; [now apply sets_up_do | exact IH].
Qed.

Lemma sets_up_buffer (req : request H) :
  supported xhr_has_responseType (rq_responseType req) = true ->
  sets_up (select_buffer xhr_has_responseType req).
Proof.
  unfold supported, select_buffer.
  destruct (rq_responseType req) as [[[]|k]|]; destruct xhr_has_responseType;
    simpl; intros Hs; try discriminate Hs;
    (apply sets_up_ret || now apply sets_up_do).
Qed.

(** The content type is detected without fail; it sets one header at most,
    [content-type], and none when the request brings a [Content-Type]. *)
Theorem detection_sets_one_header_at_most (req : request H) (n : net U) :
  exists ops,
    setDetectedContentType req n = (Ret tt, Net (pipeline n) (wire n ++ ops))
    /\ (ops = [] \/ exists v, ops = [SetRequestHeader "content-type" v])
    /\ (forall h, rq_headers req = Some h ->
                  nullish (Headers_get h "Content-Type") = false ->
                  ops = []).
Proof.
  destruct n as [w ops0]. unfold setDetectedContentType. simpl.
  assert (Hnone : exists ops,
             ret tt (Net w ops0) = (Ret tt, Net w (ops0 ++ ops))
             /\ (ops = [] \/ exists v, ops = [SetRequestHeader "content-type" v])
             /\ ops = []).
  { exists []. rewrite app_nil_r. split; [reflexivity|]. split; [now left | reflexivity]. }
  destruct (match rq_headers req with
            | Some h => negb (nullish (Headers_get h "Content-Type"))
            | None => false
            end) eqn:Hcustom.
  - destruct Hnone as [ops [Hrun [Hshape Hnil]]]. exists ops.
    split; [exact Hrun|]. split; [exact Hshape | now intros].
  - assert (Hfree : forall h, rq_headers req = Some h ->
                      nullish (Headers_get h "Content-Type") = false -> False).
    { intros h Hh Hn. rewrite Hh, Hn in Hcustom. discriminate Hcustom. }
    repeat match goal with
           | |- context [if ?b then _ else _] => destruct b
           end;
      first [ destruct Hnone as [ops [Hrun [Hshape Hnil]]]; exists ops;
              split; [exact Hrun|]; split; [exact Hshape | now intros]
            | eexists; split; [reflexivity|];
              split; [right; eexists; reflexivity
                     | intros h Hh Hn; exfalso; now apply (Hfree h)] ].
Qed.

(** When a handler or a hook of PRE_REQUEST raises, nothing is done to the
    xhr: it is not even built. *)
Theorem prerequest_raise_leaves_xhr_untouched
        (cs : gmap string (list handler)) (req : request H) (observer : value)
        (n : net U) (e : value) (w1 : world U) :
  fire code plugins cs PRE_REQUEST [rq_self req; observer] (pipeline n)
  = (Throw e, w1) ->
  subscribe_response cs req observer n = (Throw e, Net w1 (wire n)).
Proof.
  intros Hfire. unfold Connect.subscribe_response. apply bind_throw.
  unfold in_pipeline. now rewrite Hfire.
Qed.

Lemma setup_steps (req : request H) :
  sets_up ((if nullish (rq_withCredentials req) then ret tt
            else xhr_do (SetWithCredentials (rq_withCredentials req))) ;;;
           setDetectedContentType req ;;;
           set_headers (Headers_forEach (headers_to_send req))).
Proof.
  apply sets_up_then.
  - destruct (nullish _); [apply sets_up_ret | now apply sets_up_do].
  - apply sets_up_then; [apply sets_up_detection | apply sets_up_headers].
Qed.

Lemma subscribe_response_steps cs (req : request H) observer n w1 :
  fire code plugins cs PRE_REQUEST [rq_self req; observer] (pipeline n)
  = (Ret tt, w1) ->
  exists ops,
    setup_only ops
    /\ subscribe_response cs req observer n
       = (select_buffer xhr_has_responseType req ;;;
          xhr_do (AddEventListener "load") ;;;
          xhr_do (AddEventListener "error") ;;;
          xhr_do (Send (rq_body req)))
           (Net w1 (wire n ++ Build :: Open (method_name (rq_method req))
                                         (rq_url req) :: ops)).
Proof.
  intros Hfire. unfold Connect.subscribe_response.
  erewrite bind_ret by (unfold in_pipeline; rewrite Hfire; reflexivity).
  unfold bind at 1. simpl. unfold bind at 1. simpl.
  destruct (setup_steps req
              (Net w1 ((wire n ++ [Build])
                       ++ [Open (method_name (rq_method req)) (rq_url req)])))
    as [ops [Hrun Hops]].
  exists ops. split; [exact Hops|].
  unfold bind at 1. unfold bind at 1 in Hrun.
  destruct ((if nullish (rq_withCredentials req) then ret tt
             else xhr_do (SetWithCredentials (rq_withCredentials req))) _)
    as [[[]|e0] n1]; [|discriminate Hrun].
  unfold bind at 1. unfold bind at 1 in Hrun.
  destruct (setDetectedContentType req n1) as [[[]|e0] n2]; [|discriminate Hrun].
  unfold bind at 1. rewrite Hrun. simpl.
  now rewrite <- !List.app_assoc.
Qed.

(** A response type the [switch] has no case for: the constructor raises
    once the request is opened and set up; no listener is attached and
    nothing is sent. *)
Theorem unsupported_response_type_is_not_sent
        (cs : gmap string (list handler)) (req : request H) (observer : value)
        (n : net U) (w1 : world U) :
  fire code plugins cs PRE_REQUEST [rq_self req; observer] (pipeline n)
  = (Ret tt, w1) ->
  supported xhr_has_responseType (rq_responseType req) = false ->
  exists ops,
    setup_only ops
    /\ subscribe_response cs req observer n
       = (Throw (js_error "The selected responseType is not supported"),
          Net w1 (wire n ++ Build :: Open (method_name (rq_method req))
                                        (rq_url req) :: ops)).
Proof.
  intros Hfire Hsup.
  destruct (subscribe_response_steps cs req observer n w1 Hfire)
    as [ops [Hops Hrun]].
  exists ops. split; [exact Hops|]. rewrite Hrun.
  unfold supported in Hsup. unfold select_buffer.
  destruct (rq_responseType req) as [[t|k]|]; try discriminate Hsup.
  destruct xhr_has_responseType; [reflexivity | discriminate Hsup].
Qed.

(** Otherwise the request is built and opened first, then set up; the two
    listeners are attached and the body is sent last, once. *)
Theorem request_is_sent_last
        (cs : gmap string (list handler)) (req : request H) (observer : value)
        (n : net U) (w1 : world U) :
  fire code plugins cs PRE_REQUEST [rq_self req; observer] (pipeline n)
  = (Ret tt, w1) ->
  supported xhr_has_responseType (rq_responseType req) = true ->
  exists ops,
    setup_only ops
    /\ subscribe_response cs req observer n
       = (Ret tt,
          Net w1 (wire n ++ Build :: Open (method_name (rq_method req))
                                        (rq_url req)
                         :: ops ++ [AddEventListener "load";
                                    AddEventListener "error";
                                    Send (rq_body req)])).
Proof.
  intros Hfire Hsup.
  destruct (subscribe_response_steps cs req observer n w1 Hfire)
    as [ops [Hops Hrun]].
  destruct (sets_up_buffer req Hsup
              (Net w1 (wire n ++ Build :: Open (method_name (rq_method req))
                                            (rq_url req) :: ops)))
    as [ops' [Hbuf Hops']].
  exists (ops ++ ops'). split; [now apply Forall_app_2|].
  rewrite Hrun, (bind_ret _ _ _ _ _ Hbuf). unfold bind, xhr_do, modify. simpl.
  f_equal. f_equal. repeat (rewrite <- List.app_assoc; simpl). reflexivity.
Qed.

End Connection.

(** Headers as a list of names with their values, names compared as they
    are written. *)
#[local] Instance list_headers : HeadersOps (list (string * list string)) := {
  Headers_new := [];
  Headers_has h name := bool_decide (name ∈ h.*1);
  Headers_get h name :=
    match list_find (fun nv => nv.1 = name) h with
    | Some (_, (_, v :: _)) => VStr v
    | _ => VNull
    end;
  Headers_append h name v := h ++ [(name, [v])];
  Headers_forEach h := (fun nv => (nv.2, nv.1)) <$> h
}.

Definition upload : request (list (string * list string)) :=
  Req _ (VStr "req") Post (VStr "/files") VUndefined
      (Some [("Content-Type", ["text/csv"])]) 1 (Some (Known Json)) "" (VStr "a,b").

Definition odd_upload : request (list (string * list string)) :=
  Req _ (VStr "req") Post (VStr "/files") VUndefined None 1
      (Some (Unknown 9)) "" (VStr "a,b").

Definition idle : net unit := Net (World [] false tt) [].

Lemma detection_sets_one_header_at_most_witness :
  exists ops,
    setDetectedContentType upload idle = (Ret tt, Net (pipeline idle) (wire idle ++ ops))
    /\ ops = [].
Proof.
  destruct (detection_sets_one_header_at_most upload idle) as [ops [Hrun [_ Hnone]]].
  exists ops. split; [exact Hrun|].
  apply (Hnone [("Content-Type", ["text/csv"])]); reflexivity.
Defined.

Lemma prerequest_raise_leaves_xhr_untouched_witness :
  exists w1,
    Connect.subscribe_response (fun _ _ => ret VUndefined)
      [XhrFacts.hooked "auth" preRequest (fun _ => throw (js_error "denied"))]
      true (Http_constructor ∅) upload (VStr "observer") idle
    = (Throw (js_error "denied"), Net w1 []).
Proof.
  eexists.
  apply (prerequest_raise_leaves_xhr_untouched (fun _ _ => ret VUndefined)
           [XhrFacts.hooked "auth" preRequest (fun _ => throw (js_error "denied"))]
           true (Http_constructor ∅) upload (VStr "observer") idle).
  reflexivity.
Defined.

Lemma unsupported_response_type_is_not_sent_witness :
  exists ops w1,
    setup_only ops
    /\ Connect.subscribe_response (fun _ _ => ret VUndefined) [] true
         (Http_constructor ∅) odd_upload (VStr "observer") idle
       = (Throw (js_error "The selected responseType is not supported"),
          Net w1 ([] ++ Build :: Open "POST" (VStr "/files") :: ops)).
Proof.
  destruct (unsupported_response_type_is_not_sent (fun _ _ => ret VUndefined) []
              true (Http_constructor ∅) odd_upload (VStr "observer") idle
              (World [Published "PRE_REQUEST" [VStr "req"; VStr "observer"]] false tt))
    as [ops [Hops Hrun]]; [reflexivity | reflexivity |].
  exists ops. eexists. split; [exact Hops | exact Hrun].
Defined.

Lemma request_is_sent_last_witness :
  exists ops w1,
    setup_only ops
    /\ Connect.subscribe_response (fun _ _ => ret VUndefined) [] true
         (Http_constructor ∅) upload (VStr "observer") idle
       = (Ret tt,
          Net w1 ([] ++ Build :: Open "POST" (VStr "/files")
                     :: ops ++ [AddEventListener "load"; AddEventListener "error";
                                Send (VStr "a,b")])).
Proof.
  destruct (request_is_sent_last (fun _ _ => ret VUndefined) []
              true (Http_constructor ∅) upload (VStr "observer") idle
              (World [Published "PRE_REQUEST" [VStr "req"; VStr "observer"]] false tt))
    as [ops [Hops Hrun]]; [reflexivity | reflexivity |].
  exists ops. eexists. split; [exact Hops | exact Hrun].
Defined.

End ConnectFacts.

(* ===================================================================== *)
(** * Further properties of the mappers *)
(* ===================================================================== *)

Module MapperMore.
Import Mapper MapperFacts.

(** What [transform] does for one rule once its type is known. *)
Definition apply_rule {S}
           (create_transform : value -> value -> option string -> value -> M S value)
           (self : ModelMultiple) (data : value) (kr : string * MapperOptions)
  : M S value :=
  create_transform (type_of self (mo_type kr.2)) (mo_model kr.2) (mo_path kr.2) data.


Section Transform.

Context {S : Type}.
Variable json : value -> M S value.
Variable construct : value -> value -> M S value.
Variable create_transform : value -> value -> option string -> value -> M S value.




(** When the transform of a rule raises, [transform] raises the same and
    the rules after it are not looked at. *)
Theorem ModelMultiple_transform_stops_at_raise (self : ModelMultiple)
        (pre post : list (string * MapperOptions)) key rule data
        (s s1 s2 : S) (rs : list (string * value)) (e : value) :
  mm_mapper self = pre ++ (key, rule) :: post ->
  transform_loop create_transform self pre data [] s = (Ret rs, s1) ->
  truthy (type_of self (mo_type rule)) = true ->
  apply_rule create_transform self data (key, rule) s1 = (Throw e, s2) ->
  ModelMultiple_transform create_transform self data s = (Throw e, s2).
Proof.
  intros Hspec Hpre Hreg Hraise. unfold ModelMultiple_transform.
  apply bind_throw. rewrite Hspec.
  rewrite (transform_loop_app _ _ pre _ data [] s rs s1 Hpre). simpl.
  rewrite Hreg. simpl. now apply bind_throw.
Qed.


Lemma build_stops model pre x post : forall acc s ms s1 e s2,
  each_returns (construct model) pre s ms s1 ->
  construct model x s1 = (Throw e, s2) ->
  build construct model (pre ++ x :: post) acc s = (Throw e, s2).
Proof.
  induction pre as [|y pre IH]; intros acc s ms s1 e s2 Hpre Hx;
    inversion Hpre; subst; simpl.
  - now apply bind_throw.
  - erewrite bind_ret by eassumption. eapply IH; eassumption.
Qed.

(** When the constructor raises on an element, [transform] raises the same:
    the elements before it have been constructed, those after it are not,
    and no partial array is returned. *)
Theorem ModelCollection_transform_stops_at_raise
        (jp_query : value -> string -> M S value) (self : ModelCollection)
        (data : value) (pre post : list value) (x : value)
        (s s1 s2 s3 : S) (ms : list value) (e : value) :
  extract json jp_query self data s = (Ret (VArr (pre ++ x :: post)), s1) ->
  each_returns (construct (mc_model self)) pre s1 ms s2 ->
  construct (mc_model self) x s2 = (Throw e, s3) ->
  ModelCollection_transform json jp_query construct self data s = (Throw e, s3).
Proof.
  intros Hex Hpre Hx. unfold ModelCollection_transform.
  rewrite (bind_ret _ _ _ _ _ Hex). apply bind_throw.
  eapply build_stops; eassumption.
Qed.

(** Without a path, or with the empty path, the query evaluator is not
    consulted: the whole body is what [transform] works on. *)
Theorem ModelCollection_transform_without_path
        (jp_query jp_query' : value -> string -> M S value)
        (model data : value) (path : option string) (s : S) :
  path = None \/ path = Some "" ->
  ModelCollection_transform json jp_query construct
                            (MkModelCollection model path) data s
  = ModelCollection_transform json jp_query' construct
                              (MkModelCollection model path) data s
  /\ extract json jp_query (MkModelCollection model path) data s = json data s.
Proof.
  intros Hpath.
  assert (Hex : forall q, extract json q (MkModelCollection model path) data s
                          = json data s).
  { intros q. unfold extract, bind, ret. simpl.
    destruct Hpath as [-> | ->]; simpl;
      destruct (json data s) as [[r|e] s1]; reflexivity. }
  split; [|apply Hex].
  unfold ModelCollection_transform, bind. now rewrite !Hex.
Qed.

End Transform.

Definition two_rules : list (string * MapperOptions) :=
  [("user", MkMapperOptions "simple" (VFun 9) None);
   ("posts", MkMapperOptions "collection" (VFun 8) (Some "$.posts"))].

Definition after_new (mapper : list (string * MapperOptions)) : ModelMultiple :=
  match ModelMultiple_new mapper with
  | Ret self => self
  | Throw _ => MkModelMultiple [] ∅
  end.


(** The transform of a [collection] rule raises; the others return. *)
Definition collection_fails (type model : value) (path : option string)
           (data : value) : M unit value :=
  match type with
  | VFun 2 => throw (js_error "Returns should be Array")
  | _ => ret type
  end.

Lemma ModelMultiple_transform_stops_at_raise_witness :
  ModelMultiple_transform collection_fails (after_new two_rules) VNull tt
  = (Throw (js_error "Returns should be Array"), tt).
Proof.
  apply (ModelMultiple_transform_stops_at_raise collection_fails
           (after_new two_rules)
           [("user", MkMapperOptions "simple" (VFun 9) None)] []
           "posts" (MkMapperOptions "collection" (VFun 8) (Some "$.posts"))
           VNull tt tt tt [("user", ModelSimple_class)]);
    reflexivity.
Defined.


(** A model class that refuses the number 2. *)
Definition picky (model x : value) : M unit value :=
  match x with
  | VNum 2 => throw (js_error "bad element")
  | _ => ret (VObj [("of", x)])
  end.

Lemma ModelCollection_transform_stops_at_raise_witness :
  ModelCollection_transform json_id query_a picky
    (MkModelCollection (VFun 9) None) (VArr [VNum 1; VNum 2; VNum 3]) tt
  = (Throw (js_error "bad element"), tt).
Proof.
  apply (ModelCollection_transform_stops_at_raise json_id picky query_a
           (MkModelCollection (VFun 9) None) (VArr [VNum 1; VNum 2; VNum 3])
           [VNum 1] [VNum 3] (VNum 2) tt tt tt tt [VObj [("of", VNum 1)]]).
  - reflexivity.
  - repeat econstructor.
  - reflexivity.
Defined.

Lemma ModelCollection_transform_without_path_witness :
  ModelCollection_transform json_id query_a wrap
    (MkModelCollection (VFun 9) (Some "")) (VArr [VNum 1]) tt
  = ModelCollection_transform json_id (fun _ _ => throw VNull) wrap
      (MkModelCollection (VFun 9) (Some "")) (VArr [VNum 1]) tt
  /\ extract json_id query_a (MkModelCollection (VFun 9) (Some "")) (VArr [VNum 1]) tt
     = json_id (VArr [VNum 1]) tt.
Proof.
  apply (ModelCollection_transform_without_path json_id wrap query_a
           (fun _ _ => throw VNull) (VFun 9) (VArr [VNum 1]) (Some "") tt).
  now right.
Defined.

End MapperMore.

(* ===================================================================== *)
(** * The bus after [new Http], and the response url *)
(* ===================================================================== *)

Module WiringFacts.
Import Pipeline Xhr Events EventsFacts.

(** Some line of [s] starts with [p]: [s] starts with it, or it follows a
    line feed or a carriage return. *)
Definition line_starts_with (p s : string) : Prop :=
  (exists r, s = p +:+ r)
  \/ (exists pre c r, s = pre +:+ String c (p +:+ r) /\ (c = nl \/ c = cr)).

Lemma strip_prefix_complete p : forall r, strip_prefix p (p +:+ r) = Some r.
Proof.
  induction p as [|a p IH]; intros r; simpl; [reflexivity|].
  now rewrite Ascii.eqb_refl.
Qed.

Lemma starts_iff p s :
  bool_decide (is_Some (strip_prefix p s)) = true <-> exists r, s = p +:+ r.
Proof.
  rewrite bool_decide_eq_true. split.
  - intros [r Hr]. exists r. now apply XhrMore.strip_prefix_spec.
  - intros [r ->]. rewrite strip_prefix_complete. now eexists.
Qed.

Lemma line_break_iff c : Ascii.eqb c nl || Ascii.eqb c cr = true <-> c = nl \/ c = cr.
Proof.
  rewrite orb_true_iff.
  split; (intros [Hc|Hc]; [left | right]);
    first [now apply Ascii.eqb_eq | subst; apply Ascii.eqb_refl].
Qed.

Lemma test_at_line_start_iff p s : forall fresh,
  test_at_line_start p fresh s = true
  <-> (fresh = true /\ exists r, s = p +:+ r)
      \/ (exists pre c r, s = pre +:+ String c (p +:+ r) /\ (c = nl \/ c = cr)).
Proof.
  induction s as [|c s IH]; intros fresh; simpl;
    rewrite orb_true_iff, andb_true_iff, starts_iff.
  - split.
    + intros [Hstart|Hfalse]; [now left | discriminate Hfalse].
    + intros [Hstart|[pre [c [r [Heq _]]]]]; [now left|].
      destruct pre; discriminate Heq.
  - rewrite IH. split.
    + intros [Hstart|[[Hbreak [r Hr]]|[pre [c0 [r [Heq Hc0]]]]]].
      * now left.
      * right. exists "", c, r. simpl. rewrite Hr.
        split; [reflexivity | now apply line_break_iff].
      * right. exists (String c pre), c0, r. simpl. now rewrite Heq.
    + intros [Hstart|[pre [c0 [r [Heq Hc0]]]]]; [now left|].
      right. destruct pre as [|a pre]; simpl in Heq; inversion Heq; subst.
      * left. split; [now apply line_break_iff | now exists r].
      * right. now exists pre, c0, r.
Qed.

(** [getResponseURL]: the [responseURL] property wins whenever the xhr has
    one, whatever it holds; without it the [X-Request-URL] header is read
    exactly when some line of the raw headers starts with that name, so
    written, and a colon; failing both the result is [undefined]. *)
Theorem getResponseURL_precedence (x : xhr) :
  (forall u, xhr_responseURL x = Some u -> getResponseURL x = u)
  /\ (xhr_responseURL x = None ->
      line_starts_with "X-Request-URL:" (xhr_allHeaders x) ->
      getResponseURL x = xhr_getResponseHeader x "X-Request-URL")
  /\ (xhr_responseURL x = None ->
      ~ line_starts_with "X-Request-URL:" (xhr_allHeaders x) ->
      getResponseURL x = VUndefined).
Proof.
  unfold getResponseURL, line_starts_with. split; [|split].
  - intros u Hu. now rewrite Hu.
  - intros Hnone Hline. rewrite Hnone.
    destruct (test_at_line_start "X-Request-URL:" true (xhr_allHeaders x)) eqn:Ht;
      [reflexivity|].
    exfalso. apply not_true_iff_false in Ht. apply Ht.
    apply test_at_line_start_iff. destruct Hline as [Hs|Hs]; [left | right]; auto.
  - intros Hnone Hline. rewrite Hnone.
    destruct (test_at_line_start "X-Request-URL:" true (xhr_allHeaders x)) eqn:Ht;
      [|reflexivity].
    exfalso. apply Hline. apply test_at_line_start_iff in Ht.
    destruct Ht as [[_ Hs]|Hs]; [left | right]; auto.
Qed.

Lemma getResponseURL_precedence_witness :
  getResponseURL
    (XHR 200 VUndefined "" "" ("Date: now" +:+ String nl "X-Request-URL: /v2/users")
         None (fun _ => VStr "/v2/users"))
  = VStr "/v2/users".
Proof.
  apply (proj1 (proj2 (getResponseURL_precedence
                         (XHR 200 VUndefined "" ""
                              ("Date: now" +:+ String nl "X-Request-URL: /v2/users")
                              None (fun _ => VStr "/v2/users"))))).
  - reflexivity.
  - right. exists "Date: now", nl, " /v2/users". split; [reflexivity | now left].
Defined.

(** Creating an [Http] on a bus adds, for each of the four events, one
    dispatcher after the handlers the topic has, and touches no other
    topic; on a bus that already serves an [Http], each topic then holds
    two dispatchers, one after the other. A callback registered afterwards
    comes after the dispatcher. *)
Theorem Http_constructor_adds_dispatchers (cs : gmap string (list handler))
        (T : lifecycle) :
  Http_constructor cs !! topic_name T
  = Some (default [] (cs !! topic_name T) ++ [HDispatch (hook_of T)])
  /\ (forall topic, (forall T', topic <> topic_name T') ->
                    Http_constructor cs !! topic = cs !! topic)
  /\ Http_constructor (Http_constructor cs) !! topic_name T
     = Some (default [] (cs !! topic_name T)
             ++ [HDispatch (hook_of T); HDispatch (hook_of T)])
  /\ (forall id, on T (Http_constructor cs) id !! topic_name T
                 = Some (default [] (cs !! topic_name T)
                         ++ [HDispatch (hook_of T); HUser id])).
Proof.
  assert (Hone : forall cs0 : gmap string (list handler),
             Http_constructor cs0 !! topic_name T
             = Some (default [] (cs0 !! topic_name T) ++ [HDispatch (hook_of T)])).
  { intros cs0. unfold Http_constructor, runEvent.
    destruct T; simpl;
      repeat first [ rewrite subscribe_lookup
                   | rewrite subscribe_lookup_ne by discriminate ];
      reflexivity. }
  split; [apply Hone|]. split; [|split].
  - intros topic Hother. unfold Http_constructor, runEvent.
    rewrite !subscribe_lookup_ne; [reflexivity | | | |];
      intros Heq; symmetry in Heq; revert Heq; apply Hother.
  - rewrite Hone, Hone. simpl. now rewrite <- List.app_assoc.
  - intros id. unfold on. rewrite subscribe_lookup, Hone. simpl.
    now rewrite <- List.app_assoc.
Qed.

(** A bus on which two user callbacks already listen to a topic of theirs. *)
Definition user_bus : gmap string (list handler) :=
  subscribe ∅ "saved" [HUser 7; HUser 3].

Lemma Http_constructor_adds_dispatchers_witness :
  Http_constructor (user_bus) !! "saved"
  = user_bus !! "saved".
Proof.
  apply (proj1 (proj2 (Http_constructor_adds_dispatchers
                         (user_bus) POST_REQUEST))).
  intros T'. destruct T'; discriminate.
Defined.

End WiringFacts.

(* ===================================================================== *)
(** * What a raise during dispatch does *)
(* ===================================================================== *)

Module PropagationFacts.
Import Pipeline Xhr XhrFacts.

Section WithUser.

Context {U : Type}.
Variable code : nat -> callback U.

Lemma forEach_raise method req (pre : list (plugin U)) (u : U) rs u1 p f e u2 post :
  hooks_return method req pre u rs u1 ->
  never_false rs ->
  phooks p method = Some f ->
  f [req] u1 = (Throw e, u2) ->
  forall tr,
    forEach (runEvent_body method req) (pre ++ p :: post) (World tr false u)
    = (Throw e,
       World (tr ++ calls method req rs ++ [HookCalled (pname p) method req])
             false u2).
Proof.
  induction 1 as [u | q ps u rs u' Hnone _ IH | q ps g u r u1 rs u' Hsome Hg _ IH];
    intros Hnf Hp Hf tr; simpl.
  - unfold runEvent_body, bind, log, modify, lift, ret.
    rewrite Hp. simpl. now rewrite Hf.
  - unfold runEvent_body, bind, ret. rewrite Hnone. simpl.
    now apply IH.
  - inversion Hnf as [|? ? Hr Hrs]; subst. simpl in Hr.
    unfold runEvent_body, bind, log, modify, lift, ret.
    rewrite Hsome. simpl.
    rewrite Hg, (PipelineFacts.not_false_is_false r Hr). simpl.
    rewrite (IH Hrs Hp Hf). now rewrite <- List.app_assoc.
Qed.

(** [runEvent] does not catch either: on the bus of a fresh [Http], when
    the hook of a plugin raises, the event has been published, the hooks of
    the plugins before it have been called, those of the plugins after it
    are not, and firing the event raises what the hook raised. *)
Theorem hook_raise_ends_dispatch
        (T : lifecycle) (req : value)
        (pre post : list (plugin U)) (p : plugin U) (f : callback U)
        (tr : list label) (u u1 u2 : U) (rs : list (string * value)) (e : value) :
  hooks_return (hook_of T) req pre u rs u1 ->
  never_false rs ->
  phooks p (hook_of T) = Some f ->
  f [req] u1 = (Throw e, u2) ->
  fire code (pre ++ p :: post) (Http_constructor ∅) T [req] (World tr false u)
  = (Throw e,
     World (tr ++ Published (topic_name T) [req]
               :: calls (hook_of T) req rs
               ++ [HookCalled (pname p) (hook_of T) req])
           false u2).
Proof.
  intros Hpre Hnf Hp Hf.
  unfold fire, Events.publish, bind, log, modify, ret. simpl.
  rewrite PipelineFacts.Http_constructor_lookup. simpl.
  unfold bind, runEvent_handler, bind. simpl.
  rewrite (forEach_raise _ _ _ _ _ _ _ _ _ _ post Hpre Hnf Hp Hf).
  now rewrite <- List.app_assoc.
Qed.

End WithUser.

Section Connection.

Context {U : Type}.
Variable code : nat -> callback U.
Variable plugins : list (plugin U).
Variable isSuccess : Z -> bool.
Variable fromResponseHeaderString : string -> value.
Variable baseResponseOptions : option (value -> value).
Variable new_Response : value -> value.

Local Abbreviation fire := (Pipeline.fire code plugins).
Local Abbreviation complete :=
  (Xhr.complete code plugins isSuccess fromResponseHeaderString
                baseResponseOptions new_Response).
Local Abbreviation response_of :=
  (Xhr.response_of isSuccess fromResponseHeaderString baseResponseOptions
                   new_Response).

(** When the dispatch of the outcome-specific event raises, the completion
    handler raises the same at once: that event is the only one published,
    and on a success status the observer is told nothing. In the error
    branch what the error callback had raised is forgotten. *)
Theorem outcome_dispatch_raise_ends_handler
        (cs : gmap string (list handler)) (o : observer U) (req_url : value)
        (c : completion) (w w1 : world U) (e : value) :
  (succeeded isSuccess c = true ->
   fire cs POST_REQUEST_SUCCESS [response_of req_url c] w = (Throw e, w1) ->
   complete cs o req_url c w = (Throw e, w1)
   /\ exists t, trace w1 = trace w ++ t
                /\ published t = [topic_name POST_REQUEST_SUCCESS]
                /\ XhrMore.untold t)
  /\ (succeeded isSuccess c = false ->
      forall r w0,
        try_ (responseObserver_error o (response_of req_url c)) w = (Ret r, w0) ->
        fire cs POST_REQUEST_ERROR [response_of req_url c] w0 = (Throw e, w1) ->
        complete cs o req_url c w = (Throw e, w1)
        /\ exists t, trace w1 = trace w ++ t
                     /\ published t = [topic_name POST_REQUEST_ERROR]).
Proof.
  split.
  - intros Hok Hfire. destruct c as [x|x err]; [|discriminate Hok].
    unfold Xhr.succeeded in Hok. unfold Xhr.response_of in Hfire.
    split.
    + unfold Xhr.complete, Xhr.onLoad. rewrite Hok. now apply bind_throw.
    + destruct (fire_publishes_once _ _ _ _ _ _ _ _ Hfire) as [t [Ht Hp]].
      destruct (XhrMore.discreet_fire _ _ _ _ _ _ _ _ Hfire) as [t' [Ht' Hun]].
      rewrite Ht in Ht'. apply app_inv_head in Ht'. subst t'.
      eexists. split; [exact Ht|]. split; [|exact Hun].
      simpl. change (omap _ t) with (published t). now rewrite Hp.
  - intros Hfail r w0 Htry Hfire. split.
    + rewrite (complete_error_branch _ _ _ _ _ _ _ _ _ _ Hfail).
      unfold error_branch. rewrite (bind_ret _ _ _ _ _ Htry).
      now apply bind_throw.
    + destruct (silent_try _ (silent_observer_error o _) _ _ _ Htry)
        as [t0 [Ht0 Hp0]].
      destruct (fire_publishes_once _ _ _ _ _ _ _ _ Hfire) as [t [Ht Hp]].
      exists (t0 ++ Published (topic_name POST_REQUEST_ERROR)
                      [response_of req_url c] :: t).
      rewrite Ht, Ht0, <- List.app_assoc. split; [reflexivity|].
      rewrite published_app, Hp0. simpl.
      change (omap _ t) with (published t). now rewrite Hp.
Qed.

End Connection.

Lemma hook_raise_ends_dispatch_witness :
  fire (fun _ _ => ret VUndefined)
       ([audit] ++ hooked "auth" postRequest (fun _ => throw (js_error "denied"))
                :: [audit])
       (Http_constructor ∅) POST_REQUEST [VStr "resp"] (World [] false tt)
  = (Throw (js_error "denied"),
     World [Published "POST_REQUEST" [VStr "resp"];
            HookCalled "audit" postRequest (VStr "resp");
            HookCalled "auth" postRequest (VStr "resp")] false tt).
Proof.
  apply (hook_raise_ends_dispatch (fun _ _ => ret VUndefined) POST_REQUEST
           (VStr "resp") [audit] [audit]
           (hooked "auth" postRequest (fun _ => throw (js_error "denied")))
           (fun _ => throw (js_error "denied")) [] tt tt tt
           [("audit", VUndefined)] (js_error "denied")).
  - eapply hooks_call; [reflexivity | reflexivity | apply hooks_nil].
  - repeat constructor; discriminate.
  - reflexivity.
  - reflexivity.
Defined.

Lemma outcome_dispatch_raise_ends_handler_witness :
  exists w1,
    run [hooked "auth" postRequestSuccess (fun _ => throw (js_error "denied"))]
        (Http_constructor ∅) quiet_observer (LoadEvent (xhr_with 200 "[]"))
    = (Throw (js_error "denied"), w1)
    /\ exists t, trace w1 = [] ++ t
                 /\ published t = ["POST_REQUEST_SUCCESS"]
                 /\ XhrMore.untold t.
Proof.
  eexists.
  eapply (proj1 (outcome_dispatch_raise_ends_handler
                   (fun _ _ => ret VUndefined)
                   [hooked "auth" postRequestSuccess
                           (fun _ => throw (js_error "denied"))]
                   is2xx (fun _ => VObj []) None (fun opts => opts)
                   (Http_constructor ∅) quiet_observer (VStr "/users")
                   (LoadEvent (xhr_with 200 "[]")) (World [] false tt) _
                   (js_error "denied"))).
  - reflexivity.
  - reflexivity.
Defined.

End PropagationFacts.
